(** * Script Manager: discovery, risk scanning and execution of PyQGIS scripts

  A shallow embedding of [script_manager.py]: the Risk Scanner
  ([SafeScriptExecutor.validate_script_imports]), the Metadata Parser
  ([ScriptManager._parse_docstring_field], [get_script_info]), the
  namespace builder, the output capture and the Script Runner
  ([ScriptManager.execute_script]).

  Conventions.
  - A Python [str] is a [string]; each character stands for the code point of
    the same number (U+0000..U+00FF), and the character classes below are
    Python's on that range.
  - Python's [re] is embedded as a backtracking matcher over a small regular
    expression syntax; each pattern of the source is written as a term of it.
  - What belongs to the interpreter or to the host (running a script body,
    the syntax check, the file system, the user's answer to a dialog, the
    translation table in force) is a field of an environment record or of
    the world state, and every theorem quantifies over it. *)

From Stdlib Require Import Ascii String NArith ZArith Bool List Lia.
From Stdlib Require DecimalString.
From stdpp Require Import base gmap sets list strings.

Local Open Scope N_scope.

(* ===================================================================== *)
(** ** Python strings *)
(* ===================================================================== *)

Module PyStr.

Definition code (c : ascii) : N := N_of_ascii c.

Definition NL : ascii := "010"%char.

Definition in_range (lo hi : N) (c : ascii) : bool :=
  (lo <=? code c) && (code c <=? hi).

(** [str.isspace] on one character; also the class [\s] of [re]. *)
Definition isspace (c : ascii) : bool :=
  in_range 9 13 c || in_range 28 32 c || (code c =? 133) || (code c =? 160).

(** [str.isalnum] on one character. *)
Definition isalnum (c : ascii) : bool :=
  in_range 48 57 c || in_range 65 90 c || in_range 97 122 c
  || (code c =? 170) || (code c =? 178) || (code c =? 179) || (code c =? 181)
  || (code c =? 185) || (code c =? 186) || in_range 188 190 c
  || in_range 192 214 c || in_range 216 246 c || in_range 248 255 c.

(** The class [\w] of [re]: alphanumeric or underscore. *)
Definition isword (c : ascii) : bool := isalnum c || (code c =? 95).

(** [str.lower] on one character. *)
Definition lower_char (c : ascii) : ascii :=
  if in_range 65 90 c || (in_range 192 222 c && negb (code c =? 215))
  then ascii_of_N (code c + 32) else c.

Fixpoint lower (s : string) : string :=
  match s with
  | EmptyString => EmptyString
  | String c r => String (lower_char c) (lower r)
  end.

Definition ascii_eqb (a b : ascii) : bool := Ascii.eqb a b.

Fixpoint lstrip (s : string) : string :=
  match s with
  | String c r => if isspace c then lstrip r else s
  | EmptyString => EmptyString
  end.

(** [rstrip] keeps a character when it is not a space or when something
    is kept to its right. *)
Fixpoint rstrip (s : string) : string :=
  match s with
  | EmptyString => EmptyString
  | String c r =>
      match rstrip r with
      | EmptyString => if isspace c then EmptyString else String c EmptyString
      | r' => String c r'
      end
  end.

Definition strip (s : string) : string := rstrip (lstrip s).

Fixpoint startswith (s p : string) : bool :=
  match p, s with
  | EmptyString, _ => true
  | String a p', String b s' => ascii_eqb a b && startswith s' p'
  | String _ _, EmptyString => false
  end.

Definition endswith (s p : string) : bool :=
  let ls := String.length s in
  let lp := String.length p in
  (lp <=? ls)%nat && String.eqb (String.substring (ls - lp) lp s) p.

(** [s.split('\n')] *)
Fixpoint split_lines (s : string) : list string :=
  match s with
  | EmptyString => [EmptyString]
  | String c r =>
      if ascii_eqb c NL then EmptyString :: split_lines r
      else match split_lines r with
           | h :: t => String c h :: t
           | [] => [String c EmptyString]
           end
  end.

(** ['\n'.join(ls)] *)
Fixpoint join_lines (ls : list string) : string :=
  match ls with
  | [] => EmptyString
  | [x] => x
  | x :: rest => x +:+ String NL (join_lines rest)
  end.

(** [s.replace(c, '')] for a one-character [c]. *)
Fixpoint remove_char (c : ascii) (s : string) : string :=
  match s with
  | EmptyString => EmptyString
  | String a r => if ascii_eqb a c then remove_char c r else String a (remove_char c r)
  end.

(** [s.replace(a, b)] for one-character [a] and [b]. *)
Fixpoint replace_char (a b : ascii) (s : string) : string :=
  match s with
  | EmptyString => EmptyString
  | String x r => String (if ascii_eqb x a then b else x) (replace_char a b r)
  end.

Definition DQ : ascii := "034"%char.
Definition SQ : ascii := "039"%char.

Definition nonempty (s : string) : bool :=
  match s with EmptyString => false | _ => true end.

Fixpoint contains_char (c : ascii) (s : string) : bool :=
  match s with
  | EmptyString => false
  | String a r => ascii_eqb a c || contains_char c r
  end.

End PyStr.

(* ===================================================================== *)
(** ** Python's [re]: patterns and backtracking search *)
(* ===================================================================== *)

Module Re.
Import PyStr.

(** The constructs the patterns of the source use. *)
Inductive regex : Type :=
| Eps                                  (* empty pattern *)
| Lit (c : ascii)                      (* a literal character *)
| Space                                (* \s *)
| NotNewline                           (* [^\n] *)
| AnyChar                              (* [\s\S] *)
| Seq (r1 r2 : regex)
| Alt (r1 r2 : regex)                  (* r1|r2, r1 tried first *)
| Star (r : regex)                     (* r*  greedy *)
| LazyStar (r : regex)                 (* r*? lazy *)
| Plus (r : regex)                     (* r+  greedy *)
| Group (r : regex)                    (* capturing group 1 *)
| WordBoundary                         (* \b *)
| NotAfterWord.                        (* (?<!\w) *)

(** A position in the subject: the character before it, what remains,
    and its index. *)
Record cursor := Cursor { before : option ascii; rest : string; pos : nat }.

Record rmatch := Match { m_start : nat; m_end : nat; group1 : option string }.

Definition advance (cur : cursor) : option (ascii * cursor) :=
  match rest cur with
  | EmptyString => None
  | String c r => Some (c, Cursor (Some c) r (S (pos cur)))
  end.

Definition word_before (cur : cursor) : bool :=
  match before cur with Some c => isword c | None => false end.

Definition word_after (cur : cursor) : bool :=
  match rest cur with String c _ => isword c | EmptyString => false end.

Definition lit_eq (ignorecase : bool) (p t : ascii) : bool :=
  if ignorecase then ascii_eqb (lower_char t) (lower_char p) else ascii_eqb t p.

Definition one (test : ascii -> bool) (cur : cursor) {R}
    (k : cursor -> option R) : option R :=
  match advance cur with
  | Some (c, cur') => if test c then k cur' else None
  | None => None
  end.

Definition orelse {R} (a b : option R) : option R :=
  match a with Some x => Some x | None => b end.

Section Matcher.
Variable ignorecase : bool.
Variable R : Type.

(** Continuation-passing matcher: alternatives are tried in the order
    [re] tries them, and the first complete match wins. *)
Fixpoint run (r : regex) (cur : cursor) (cap : option string)
    (k : cursor -> option string -> option R) {struct r} : option R :=
  match r with
  | Eps => k cur cap
  | Lit c => one (lit_eq ignorecase c) cur (fun cur' => k cur' cap)
  | Space => one isspace cur (fun cur' => k cur' cap)
  | NotNewline => one (fun c => negb (ascii_eqb c NL)) cur (fun cur' => k cur' cap)
  | AnyChar => one (fun _ => true) cur (fun cur' => k cur' cap)
  | Seq r1 r2 => run r1 cur cap (fun cur' cap' => run r2 cur' cap' k)
  | Alt r1 r2 => orelse (run r1 cur cap k) (run r2 cur cap k)
  | Star r' =>
      (fix loop (fuel : nat) (cur : cursor) (cap : option string) : option R :=
         match fuel with
         | O => k cur cap
         | S fuel' =>
             orelse
               (run r' cur cap (fun cur' cap' =>
                  if (pos cur' <=? pos cur)%nat then None else loop fuel' cur' cap'))
               (k cur cap)
         end) (String.length (rest cur)) cur cap
  | LazyStar r' =>
      (fix loop (fuel : nat) (cur : cursor) (cap : option string) : option R :=
         match fuel with
         | O => k cur cap
         | S fuel' =>
             orelse
               (k cur cap)
               (run r' cur cap (fun cur' cap' =>
                  if (pos cur' <=? pos cur)%nat then None else loop fuel' cur' cap'))
         end) (String.length (rest cur)) cur cap
  | Plus r' =>
      run r' cur cap (fun cur1 cap1 =>
        (fix loop (fuel : nat) (cur : cursor) (cap : option string) : option R :=
           match fuel with
           | O => k cur cap
           | S fuel' =>
               orelse
                 (run r' cur cap (fun cur' cap' =>
                    if (pos cur' <=? pos cur)%nat then None else loop fuel' cur' cap'))
                 (k cur cap)
           end) (String.length (rest cur1)) cur1 cap1)
  | Group r' =>
      run r' cur cap (fun cur' _ =>
        k cur' (Some (String.substring 0 (pos cur' - pos cur) (rest cur))))
  | WordBoundary =>
      if xorb (word_before cur) (word_after cur) then k cur cap else None
  | NotAfterWord =>
      if word_before cur then None else k cur cap
  end.
End Matcher.

Definition match_at (ignorecase : bool) (r : regex) (cur : cursor) : option rmatch :=
  run ignorecase rmatch r cur None
      (fun cur' cap => Some (Match (pos cur) (pos cur') cap)).

(** Leftmost match: every start position in turn, the end of the subject
    included. *)
Fixpoint search_from (ignorecase : bool) (r : regex) (cur : cursor) (fuel : nat)
    : option rmatch :=
  match match_at ignorecase r cur with
  | Some m => Some m
  | None =>
      match fuel, advance cur with
      | S fuel', Some (_, cur') => search_from ignorecase r cur' fuel'
      | _, _ => None
      end
  end.

(** [re.search(r, s)] and [re.search(r, s, re.IGNORECASE)] *)
Definition search (ignorecase : bool) (r : regex) (s : string) : option rmatch :=
  search_from ignorecase r (Cursor None s 0) (String.length s).

(** A run of literal characters. *)
Fixpoint lits (s : string) : regex :=
  match s with
  | EmptyString => Eps
  | String c r => Seq (Lit c) (lits r)
  end.

Fixpoint seqs (rs : list regex) : regex :=
  match rs with
  | [] => Eps
  | [r] => r
  | r :: rs' => Seq r (seqs rs')
  end.

End Re.

(* ===================================================================== *)
(** ** SafeScriptExecutor: the Risk Scanner *)
(* ===================================================================== *)

Module Scanner.
Import PyStr Re.

Definition dot : regex := Lit "."%char.
Definition lparen : regex := Lit "("%char.

(** [\bsubprocess\s*\.\s*NAME\b] *)
Definition subprocess_attr (name : string) : regex :=
  seqs [WordBoundary; lits "subprocess"; Star Space; dot; Star Space;
        lits name; WordBoundary].

(** [RISKY_PATTERNS]: the pattern and its label, in the order of the source. *)
Definition RISKY_PATTERNS : list (regex * string) :=
  [ (subprocess_attr "call", "subprocess.call");
    (subprocess_attr "run", "subprocess.run");
    (subprocess_attr "Popen", "subprocess.Popen");
    (seqs [WordBoundary; lits "os"; Star Space; dot; Star Space; lits "system";
           Star Space; lparen], "os.system()");
    (seqs [NotAfterWord; lits "eval"; Star Space; lparen], "eval()");
    (seqs [NotAfterWord; lits "exec"; Star Space; lparen], "exec()");
    (seqs [WordBoundary; lits "__import__"; Star Space; lparen], "__import__()") ].

(** [l.lstrip().startswith('#')] *)
Definition is_comment_line (l : string) : bool := startswith (lstrip l) "#".

(** The lines that are not comment lines. *)
Definition code_lines (script_content : string) : list string :=
  filter (fun l => is_comment_line l = false) (split_lines script_content).

(** The text the patterns are matched against: those lines, joined again. *)
Definition code_of (script_content : string) : string :=
  join_lines (code_lines script_content).

Definition warning_text (label : string) : string :=
  "⚠️ Potentially risky operation detected: " +:+ label.

Definition matches (pattern : regex) (code : string) : bool :=
  match search false pattern code with Some _ => true | None => false end.

Definition validate_script_imports (script_content : string) : list string :=
  let code := code_of script_content in
  (fun pl => warning_text (snd pl)) <$>
    filter (fun pl => matches (fst pl) code = true) RISKY_PATTERNS.

(** Every warning the scanner can give, in pattern order. *)
Definition all_warnings : list string :=
  (fun pl => warning_text (snd pl)) <$> RISKY_PATTERNS.

End Scanner.

(* ===================================================================== *)
(** ** The interpreter state a script can act on, and the host *)
(* ===================================================================== *)

Module Host.
Import PyStr.

Definition nl : string := String NL EmptyString.

(** Exception classes, as far as [except Exception] tells them apart. *)
Inductive exc_class : Type :=
| SystemExit
| KeyboardInterrupt
| GeneratorExit
| OtherBaseException (name : string)
| ExceptionClass (name : string).

(** [isinstance(e, Exception)] *)
Definition is_Exception (c : exc_class) : bool :=
  match c with ExceptionClass _ => true | _ => false end.

(** An exception object, by its class and by what [str(e)] does with it:
    it returns a text, or, for a class with a [__str__] of its own, it raises
    in turn. [str] answers the same each time it is asked of one object. *)
Inductive pyexc : Type :=
| PyExc (cls : exc_class) (msg : string)
| PyExcStrRaises (cls : exc_class) (raised : pyexc).

Definition exc_cls (e : pyexc) : exc_class :=
  match e with PyExc c _ | PyExcStrRaises c _ => c end.

(** [str(e)]: the text, or the exception that leaves the call. *)
Definition py_str (e : pyexc) : string + pyexc :=
  match e with
  | PyExc _ msg => inl msg
  | PyExcStrRaises _ raised => inr raised
  end.

(** The text of [str(e)], where it has returned. *)
Definition exc_str (e : pyexc) : string :=
  match py_str e with inl msg => msg | inr _ => EmptyString end.

(** The stream objects of the process: the host's two and the two
    [io.StringIO] buffers of the executor. *)
Inductive stream : Type := ConsoleOut | ConsoleErr | OutputBuffer | ErrorBuffer.

Record SysState := Sys {
  sys_path : list string;
  sys_stdout : stream;
  sys_stderr : stream;
  console_out : string;
  console_err : string;
  output_buffer : string;
  error_buffer : string }.

Definition set_sys_path (p : list string) (s : SysState) : SysState :=
  Sys p (sys_stdout s) (sys_stderr s) (console_out s) (console_err s)
      (output_buffer s) (error_buffer s).

Definition set_std (o e : stream) (s : SysState) : SysState :=
  Sys (sys_path s) o e (console_out s) (console_err s)
      (output_buffer s) (error_buffer s).

Definition set_buffers (o e : string) (s : SysState) : SysState :=
  Sys (sys_path s) (sys_stdout s) (sys_stderr s) (console_out s) (console_err s) o e.

Definition stream_value (x : stream) (s : SysState) : string :=
  match x with
  | ConsoleOut => console_out s
  | ConsoleErr => console_err s
  | OutputBuffer => output_buffer s
  | ErrorBuffer => error_buffer s
  end.

(** [x.write(text)] *)
Definition write (x : stream) (text : string) (s : SysState) : SysState :=
  match x with
  | ConsoleOut => Sys (sys_path s) (sys_stdout s) (sys_stderr s)
                      (console_out s +:+ text) (console_err s)
                      (output_buffer s) (error_buffer s)
  | ConsoleErr => Sys (sys_path s) (sys_stdout s) (sys_stderr s)
                      (console_out s) (console_err s +:+ text)
                      (output_buffer s) (error_buffer s)
  | OutputBuffer => Sys (sys_path s) (sys_stdout s) (sys_stderr s)
                      (console_out s) (console_err s)
                      (output_buffer s +:+ text) (error_buffer s)
  | ErrorBuffer => Sys (sys_path s) (sys_stdout s) (sys_stderr s)
                      (console_out s) (console_err s)
                      (output_buffer s) (error_buffer s +:+ text)
  end.

(** [print(text)] *)
Definition py_print (text : string) (s : SysState) : SysState :=
  write (sys_stdout s) (text +:+ nl) s.

(** Values held in an execution namespace: strings, integers, and the
    host's objects, passed through as opaque handles. *)
Inductive pyval : Type :=
| PyStr (s : string)
| PyInt (z : Z)
| Handle (qualified_name : string).

Inductive level : Type := Info | Warning | Critical | Success.

Inductive reply : Type := Yes | No.

(** What the manager does to the host, in the order it does it. *)
Inductive event : Type :=
| EvLog (message tag : string) (lvl : level)          (* QgsMessageLog.logMessage *)
| EvStatus (message : string) (timeout : nat) (is_warning : bool) (* show_status_message *)
| EvQuestion (title text : string) (answer : reply)   (* QMessageBox.question *)
| EvCritical (title text : string)                    (* QMessageBox.critical *)
| EvExec (script_content : string) (script_globals : gmap string pyval). (* exec(...) *)

(** [compile(content, script_path, 'exec')]: it succeeds, raises
    [SyntaxError], or raises [ValueError] (a null character in the source). *)
Inductive compile_result : Type :=
| CompileOk
| CompileSyntaxError (msg : string)
| CompileValueError (msg : string).

Record OsPath := {
  basename : string -> string;
  dirname : string -> string;
  join : string -> string -> string;
  splitext : string -> string * string }.

(** The interpreter and the host, as one run of the plug-in sees them. *)
Record Env := {
  scripts_dir : string;
  QT_VERSION_STR : string;
  tr : string -> string;
  os_path : OsPath;
  str_title : string -> string;
  py_compile : string -> string -> compile_result;
  py_exec : string -> gmap string pyval -> SysState -> SysState * option pyexc;
  format_exc : pyexc -> string;
  question_reply : string -> string -> list event -> reply }.

Inductive file_state : Type :=
| Readable (content : string)
| Unreadable (cls msg : string).

Definition str_of_nat (n : nat) : string :=
  DecimalString.NilEmpty.string_of_uint (Nat.to_uint n).

End Host.

(* ===================================================================== *)
(** ** SafeScriptExecutor: namespace and output capture *)
(* ===================================================================== *)

Module Executor.
Import PyStr Host.

Definition QT_VERSION (env : Env) : Z :=
  if startswith (QT_VERSION_STR env) "6" then 6%Z else 5%Z.

(** A dict display: later keys overwrite earlier ones. *)
Definition dict_of (items : list (string * pyval)) : gmap string pyval :=
  foldl (fun m kv => <[kv.1 := kv.2]> m) ∅ items.

Definition handles (names : list string) : list (string * pyval) :=
  map (fun n => (n, Handle n)) names.

Definition prepare_safe_namespace (env : Env) (script_path : string)
    : gmap string pyval :=
  dict_of
    ([ ("__name__", PyStr "__main__"); ("__file__", PyStr script_path);
       ("QT_VERSION", PyInt (QT_VERSION env)) ]
     ++ handles
       [ "QgsProject"; "QgsVectorLayer"; "QgsRasterLayer"; "QgsFeature";
         "QgsGeometry"; "QgsMessageLog"; "Qgis";
         "QgsCoordinateReferenceSystem"; "QgsCoordinateTransform";
         "QgsUnitTypes"; "QgsWkbTypes"; "QgsMapCanvas"; "QgsMapTool";
         "QgsMapLayerProxyModel"; "QgsProcessingContext"; "iface";
         "QMessageBox"; "QInputDialog"; "QFileDialog"; "QProgressBar";
         "QComboBox"; "QCheckBox"; "Qt"; "QTimer"; "QThread"; "pyqtSignal";
         "QIcon"; "QPixmap"; "QColor"; "json"; "math"; "datetime"; "re" ]).

(** [with self.capture_output(): body]: the two streams are swapped for
    the buffers, and put back whether [body] ends or raises. *)
Definition capture_output {A} (body : SysState -> SysState * A) (s : SysState)
    : SysState * A :=
  let old_stdout := sys_stdout s in
  let old_stderr := sys_stderr s in
  let '(s', a) := body (set_std OutputBuffer ErrorBuffer s) in
  (set_std old_stdout old_stderr s', a).

(** Returns both buffers' text and empties them. *)
Definition get_captured_output (s : SysState) : SysState * (string * string) :=
  let output := output_buffer s in
  let errors := error_buffer s in
  (set_buffers EmptyString EmptyString s, (output, errors)).

End Executor.

(* ===================================================================== *)
(** ** posixpath, for concrete environments *)
(* ===================================================================== *)

Module PosixPath.
Import PyStr Host.

(** Splits at the last occurrence of [c]: what is before it, what is after. *)
Fixpoint rsplit (c : ascii) (s : string) : option (string * string) :=
  match s with
  | EmptyString => None
  | String a r =>
      match rsplit c r with
      | Some (h, t) => Some (String a h, t)
      | None => if ascii_eqb a c then Some (EmptyString, r) else None
      end
  end.

Fixpoint all_char (c : ascii) (s : string) : bool :=
  match s with
  | EmptyString => true
  | String a r => ascii_eqb a c && all_char c r
  end.

Fixpoint rstrip_char (c : ascii) (s : string) : string :=
  match s with
  | EmptyString => EmptyString
  | String a r =>
      match rstrip_char c r with
      | EmptyString => if ascii_eqb a c then EmptyString else String a EmptyString
      | r' => String a r'
      end
  end.

Definition posix_basename (p : string) : string :=
  match rsplit "/" p with Some (_, t) => t | None => p end.

Definition posix_dirname (p : string) : string :=
  match rsplit "/" p with
  | None => EmptyString
  | Some (h, _) =>
      let head := h +:+ "/" in
      if all_char "/" head then head else rstrip_char "/" head
  end.

Definition posix_join (a b : string) : string :=
  if startswith b "/" then b
  else if negb (nonempty a) || endswith a "/" then a +:+ b
  else a +:+ "/" +:+ b.

Definition posix_splitext (p : string) : string * string :=
  let '(dir, base) :=
    match rsplit "/" p with
    | Some (h, t) => (h +:+ "/", t)
    | None => (EmptyString, p)
    end in
  match rsplit "." base with
  | Some (stem, ext) =>
      if all_char "." stem then (p, EmptyString)
      else (dir +:+ stem, "." +:+ ext)
  | None => (p, EmptyString)
  end.

Definition posixpath : OsPath :=
  {| basename := posix_basename; dirname := posix_dirname;
     join := posix_join; splitext := posix_splitext |}.

End PosixPath.

(* ===================================================================== *)
(** ** ScriptManager: the Metadata Parser *)
(* ===================================================================== *)

Module Metadata.
Import PyStr Re Host.

(** What [_parse_docstring_field] returns: [None], a bool or a str. *)
Inductive field_value : Type :=
| FNone
| FBool (b : bool)
| FStr (s : string).

(** Python truth value. *)
Definition truthy (v : field_value) : bool :=
  match v with
  | FNone => false
  | FBool b => b
  | FStr s => nonempty s
  end.

Definition triple (c : ascii) : regex := seqs [Lit c; Lit c; Lit c].

(** The pattern built for [field]: a triple quote, [\s*], [[\s\S]*?], the
    field name and a colon, [\s*], and the group [([^\n]+)]. *)
Definition field_pattern (field : string) : regex :=
  seqs [Alt (triple DQ) (triple SQ); Star Space; LazyStar AnyChar;
        lits field; Lit ":"%char; Star Space; Group (Plus NotNewline)].

Definition truthy_tokens : list string := ["true"; "yes"; "1"].

Definition group1_text (m : rmatch) : string :=
  match group1 m with Some g => g | None => EmptyString end.

Definition _parse_docstring_field (content field : string) (as_bool : bool)
    : field_value :=
  match search true (field_pattern field) content with
  | None => if as_bool then FBool false else FNone
  | Some m =>
      if as_bool
      then FBool (bool_decide (lower (strip (group1_text m)) ∈ truthy_tokens))
      else FStr (remove_char SQ (remove_char DQ (strip (group1_text m))))
  end.

Record ScriptRecord := {
  name : string;
  path : string;
  description : string;
  toolbar : bool;
  toolbar_label : field_value;
  validated : bool }.

Definition as_bool_of (v : field_value) : bool := truthy v.

(** ['Descrição'] and ['Descripción'], by code point. *)
Definition Descricao : string :=
  "Descri" +:+ String "231" (String "227" "o").
Definition Descripcion : string :=
  "Descripci" +:+ String "243" "n".

Definition desc_keys : list string := ["Description"; Descricao; Descripcion].

(** The loop over [desc_keys]: the first truthy value, else the last
    value tried. *)
Fixpoint first_description (content : string) (keys : list string)
    (description : field_value) : field_value :=
  match keys with
  | [] => description
  | key :: keys' =>
      let d := _parse_docstring_field content key false in
      if truthy d then d else first_description content keys' d
  end.

(** The part of [get_script_info] after the file was read and compiled. *)
Definition script_info_of (env : Env) (script_path content : string) : ScriptRecord :=
  let description :=
    match first_description content desc_keys FNone with
    | FStr s => if nonempty s then s else "PyQGIS Script"
    | _ => "PyQGIS Script"
    end in
  let show_in_toolbar := as_bool_of (_parse_docstring_field content "Toolbar" true) in
  let toolbar_label :=
    if show_in_toolbar then _parse_docstring_field content "ToolbarLabel" false
    else FNone in
  let is_validated := as_bool_of (_parse_docstring_field content "Validated" true) in
  let script_name := fst (splitext (os_path env) (basename (os_path env) script_path)) in
  {| name := str_title env (replace_char "_" " " script_name);
     path := script_path;
     description := description;
     toolbar := show_in_toolbar;
     toolbar_label := toolbar_label;
     validated := is_validated |}.

End Metadata.

(* ===================================================================== *)
(** ** ScriptManager: state, discovery and the Script Runner *)
(* ===================================================================== *)

Module Manager.
Import PyStr Host Executor Metadata.

(** The file system, the interpreter's [sys] module and the manager's own
    attributes, together with the trace of what was done to the host. *)
Record World := Mk {
  files : gmap string file_state;
  scripts_dir_exists : bool;
  listdir : list string;
  sys : SysState;
  scripts : gmap string ScriptRecord;
  _validated_acknowledged : gset string;
  watched : gset string;
  events : list event }.

Definition set_sys (s : SysState) (w : World) : World :=
  Mk (files w) (scripts_dir_exists w) (listdir w) s (scripts w)
     (_validated_acknowledged w) (watched w) (events w).

Definition set_scripts (m : gmap string ScriptRecord) (w : World) : World :=
  Mk (files w) (scripts_dir_exists w) (listdir w) (sys w) m
     (_validated_acknowledged w) (watched w) (events w).

Definition set_acknowledged (a : gset string) (w : World) : World :=
  Mk (files w) (scripts_dir_exists w) (listdir w) (sys w) (scripts w)
     a (watched w) (events w).

Definition set_watched (a : gset string) (w : World) : World :=
  Mk (files w) (scripts_dir_exists w) (listdir w) (sys w) (scripts w)
     (_validated_acknowledged w) a (events w).

Definition emit (e : event) (w : World) : World :=
  Mk (files w) (scripts_dir_exists w) (listdir w) (sys w) (scripts w)
     (_validated_acknowledged w) (watched w) (events w ++ [e]).

(** An edit made outside the plug-in: the files and the directory listing
    change, nothing else does. *)
Definition set_files (f : gmap string file_state) (exists_ : bool)
    (ls : list string) (w : World) : World :=
  Mk f exists_ ls (sys w) (scripts w)
     (_validated_acknowledged w) (watched w) (events w).

Definition tag : string := "Script Manager".

(** [open(p, 'r', encoding='utf-8').read()]: the text, or the exception
    raised, always of a class below [Exception]. *)
Definition read_file (w : World) (p : string) : string + pyexc :=
  match files w !! p with
  | Some (Readable content) => inl content
  | Some (Unreadable cls msg) => inr (PyExc (ExceptionClass cls) msg)
  | None => inr (PyExc (ExceptionClass "FileNotFoundError")
                       ("[Errno 2] No such file or directory: '" +:+ p +:+ "'"))
  end.

Definition path_exists (w : World) (p : string) : bool :=
  bool_decide (is_Some (files w !! p)).

(** *** Discovery *)

Definition get_script_info (env : Env) (script_path : string) (w : World)
    : World * option ScriptRecord :=
  match read_file w script_path with
  | inr e =>
      (emit (EvLog ("Error reading script " +:+ script_path +:+ ": " +:+ exc_str e)
                   tag Warning) w, None)
  | inl content =>
      match py_compile env content script_path with
      | CompileSyntaxError msg =>
          (emit (EvLog ("Syntax error in " +:+ script_path +:+ ": " +:+ msg)
                       tag Warning) w, None)
      | CompileValueError msg =>
          (emit (EvLog ("Error reading script " +:+ script_path +:+ ": " +:+ msg)
                       tag Warning) w, None)
      | CompileOk => (w, Some (script_info_of env script_path content))
      end
  end.

(** [ScriptWatcher.add_file_to_watch] *)
Definition add_file_to_watch (file_path : string) (w : World) : World :=
  if path_exists w file_path && bool_decide (file_path ∉ watched w)
  then set_watched ({[file_path]} ∪ watched w) w
  else w.

Record counts := Counts { loaded_count : nat; error_count : nat }.

(** The loop of [load_scripts] over the directory listing. *)
Fixpoint load_loop (env : Env) (names : list string) (c : counts) (w : World)
    : World * counts :=
  match names with
  | [] => (w, c)
  | filename :: names' =>
      if endswith filename ".py" && negb (startswith filename "__")
      then
        let script_path := join (os_path env) (scripts_dir env) filename in
        let '(w1, info) := get_script_info env script_path w in
        match info with
        | Some script_info =>
            let w2 := set_scripts (<[filename := script_info]> (scripts w1)) w1 in
            let w3 := add_file_to_watch script_path w2 in
            load_loop env names' (Counts (S (loaded_count c)) (error_count c)) w3
        | None =>
            load_loop env names' (Counts (loaded_count c) (S (error_count c))) w1
        end
      else load_loop env names' c w
  end.

Definition load_scripts (env : Env) (w : World) : World :=
  let w0 := set_scripts ∅ w in
  if negb (scripts_dir_exists w0) then w0
  else
    let '(w1, c) := load_loop env (listdir w0) (Counts 0 0) w0 in
    emit (EvLog ("Loaded " +:+ str_of_nat (loaded_count c) +:+ " scripts, "
                 +:+ str_of_nat (error_count c) +:+ " errors") tag Info) w1.

(** *** Execution *)

(** What [execute_script] gives back: a bool, or the 4-tuple of capture mode. *)
Inductive retval : Type :=
| RetBool (success : bool)
| RetTuple (success : bool) (captured_output captured_errors : string)
           (validation_warnings : list string).

(** How a call ends: it returns, or an exception leaves it. *)
Inductive outcome : Type :=
| Returned (r : retval)
| Propagated (e : pyexc).

(** The local variables of [execute_script]. *)
Record locals := Locals {
  success : bool;
  captured_output : string;
  captured_errors : string;
  validation_warnings : list string }.

Definition final_return (capture : bool) (l : locals) : outcome :=
  Returned (if capture
            then RetTuple (success l) (captured_output l) (captured_errors l)
                          (validation_warnings l)
            else RetBool (success l)).

(** [self.scripts.get(script_filename, {}).get('validated', False)] *)
Definition is_validated_of (env : Env) (script_path : string) (w : World) : bool :=
  match scripts w !! basename (os_path env) script_path with
  | Some script_info => validated script_info
  | None => false
  end.

Definition question_title (env : Env) : string := tr env "validation_warnings".

Definition question_text (env : Env) (warnings : list string) : string :=
  tr env "validation_warnings" +:+ ":" +:+ nl +:+ nl +:+ join_lines warnings
  +:+ nl +:+ nl +:+ "Continue execution?".

Definition needs_prompt (env : Env) (script_path : string) (w : World) : bool :=
  negb (is_validated_of env script_path w)
  || bool_decide (script_path ∉ _validated_acknowledged w).

(** The confirmation block; [false] stands for its [return False]. *)
Definition confirm (env : Env) (script_path : string) (capture : bool)
    (warnings : list string) (w : World) : World * bool :=
  match warnings with
  | _ :: _ =>
      if capture then (w, true)
      else
        let is_validated := is_validated_of env script_path w in
        if needs_prompt env script_path w then
          let title := question_title env in
          let text := question_text env warnings in
          let answer := question_reply env title text (events w) in
          let w1 := emit (EvQuestion title text answer) w in
          match answer with
          | No => (w1, false)
          | Yes =>
              (if is_validated
               then set_acknowledged ({[script_path]} ∪ _validated_acknowledged w1) w1
               else w1, true)
          end
        else (w, true)
  | [] => (w, true)
  end.

(** [exec(script_content, script_globals)] *)
Definition do_exec (env : Env) (script_content : string)
    (script_globals : gmap string pyval) (s : SysState) : SysState * option pyexc :=
  py_exec env script_content script_globals s.

(** The body of the inner [try], up to the first exception. *)
Definition try_body (env : Env) (script_path script_content : string)
    (script_globals : gmap string pyval) (capture : bool) (l : locals) (w : World)
    : World * locals * option pyexc :=
  let script_dir := dirname (os_path env) script_path in
  let w1 :=
    if bool_decide (script_dir ∈ sys_path (sys w)) then w
    else set_sys (set_sys_path (script_dir :: sys_path (sys w)) (sys w)) w in
  let w1' := emit (EvExec script_content script_globals) w1 in
  let '(w2, l2, raised) :=
    if capture then
      let '(s', r) :=
        capture_output (do_exec env script_content script_globals) (sys w1') in
      match r with
      | Some e => (set_sys s' w1', l, Some e)
      | None =>
          let '(s'', (out, err)) := get_captured_output s' in
          (set_sys s'' w1',
           Locals (success l) out err (validation_warnings l), None)
      end
    else
      let '(s', r) := do_exec env script_content script_globals (sys w1') in
      (set_sys s' w1', l, r) in
  match raised with
  | Some e => (w2, l2, Some e)
  | None =>
      let l3 := Locals true (captured_output l2) (captured_errors l2)
                       (validation_warnings l2) in
      let script_name := basename (os_path env) script_path in
      let w3 :=
        if capture then w2
        else emit (EvStatus ("✅ " +:+ remove_char "!" (tr env "script_executed")
                             +:+ " '" +:+ script_name +:+ "'!") 3000 false) w2 in
      let w4 := emit (EvLog ("✅ Script executed successfully: " +:+ script_name)
                            tag Success) w3 in
      let w5 :=
        if nonempty (strip (captured_output l3))
        then emit (EvLog ("📤 " +:+ tr env "output_captured" +:+ ":" +:+ nl
                          +:+ captured_output l3) tag Info) w4
        else w4 in
      (w5, l3, None)
  end.

Definition error_msg (env : Env) (script_path : string) (e : pyexc) : string :=
  "❌ " +:+ tr env "error_executing" +:+ " " +:+ basename (os_path env) script_path
  +:+ ": " +:+ exc_str e.

Definition detailed_error (env : Env) (script_path : string) (e : pyexc) : string :=
  error_msg env script_path e +:+ nl +:+ nl +:+ "Details:" +:+ nl +:+ format_exc env e.

(** The [except Exception as e] block, followed by the final return. The
    block formats [str(e)] first, unguarded: an exception raised by the
    [__str__] of [e] leaves the block, and the call, at that point. *)
Definition except_block (env : Env) (script_path : string) (capture : bool)
    (l : locals) (e : pyexc) (w : World) : World * outcome :=
  let script_name := basename (os_path env) script_path in
  match py_str e with
  | inr raised => (w, Propagated raised)
  | inl _ =>
      let l1 := Locals (success l) (captured_output l)
                       (detailed_error env script_path e) (validation_warnings l) in
      let w1 :=
        if capture then w
        else
          emit (EvCritical (tr env "script_error")
                  (tr env "error_executing" +:+ " '" +:+ script_name +:+ "':" +:+ nl +:+ nl
                   +:+ exc_str e +:+ nl +:+ nl +:+ tr env "check_log"))
            (emit (EvStatus ("❌ " +:+ tr env "error" +:+ " '" +:+ script_name +:+ "'")
                            5000 true) w) in
      let w2 := emit (EvLog (detailed_error env script_path e) tag Critical) w1 in
      (w2, final_return capture l1)
  end.

Definition execute_script (env : Env) (script_path : string) (capture : bool)
    (w : World) : World * outcome :=
  let l0 := Locals false EmptyString EmptyString [] in
  match read_file w script_path with
  | inr e => except_block env script_path capture l0 e w
  | inl script_content =>
      let l1 := Locals (success l0) (captured_output l0) (captured_errors l0)
                       (Scanner.validate_script_imports script_content) in
      match confirm env script_path capture (validation_warnings l1) w with
      | (w1, false) => (w1, Returned (RetBool false))
      | (w1, true) =>
          let script_globals := prepare_safe_namespace env script_path in
          let original_path := sys_path (sys w1) in
          let '(w2, l2, raised) :=
            try_body env script_path script_content script_globals capture l1 w1 in
          (* finally *)
          let w3 := set_sys (set_sys_path original_path (sys w2)) w2 in
          match raised with
          | None => (w3, final_return capture l2)
          | Some e =>
              if is_Exception (exc_cls e)
              then except_block env script_path capture l2 e w3
              else (w3, Propagated e)
          end
      end
  end.

(** *** Sequences of operations *)

Inductive op : Type :=
| Run (script_path : string) (capture : bool)   (* execute_script *)
| Reload                                        (* load_scripts *)
| Edit (f : gmap string file_state) (dir_exists : bool) (ls : list string).

Definition step (env : Env) (o : op) (w : World) : World :=
  match o with
  | Run p c => fst (execute_script env p c w)
  | Reload => load_scripts env w
  | Edit f d ls => set_files f d ls w
  end.

Definition run_ops (env : Env) (ops : list op) (w : World) : World :=
  foldl (fun w o => step env o w) w ops.

End Manager.

(* ===================================================================== *)
(** ** A concrete environment: four scripts and an English-speaking host *)
(* ===================================================================== *)

Module Demo.
Import PyStr Host Executor Metadata Manager PosixPath.

Definition script_hello : string := "print('hi')".

(** Prints, then raises an exception nothing catches. *)
Definition script_raise : string :=
  "print('before')" +:+ nl +:+ "raise ValueError('boom')".

Definition script_exit : string :=
  "import sys" +:+ nl +:+ "sys.exit(1)".

Definition script_risky : string :=
  "import os" +:+ nl +:+ "os.system('ls')".

Definition script_validated : string :=
  "'''" +:+ nl +:+ "Description: lists files" +:+ nl +:+ "Validated: true" +:+ nl
  +:+ "'''" +:+ nl +:+ "import os" +:+ nl +:+ "os.system('ls')".

(** A docstring without fields, then a second triple-quoted string. *)
Definition script_two_strings : string :=
  "'''Doc'''" +:+ nl +:+ "'''" +:+ nl +:+ "Validated: true" +:+ nl +:+ "'''" +:+ nl.

(** A risky call that is only an example inside the docstring. *)
Definition script_docstring_example : string :=
  "'''" +:+ nl +:+ "Example:" +:+ nl +:+ "    os.system('ls')" +:+ nl +:+ "'''"
  +:+ nl +:+ "print(1)".

(** Raises an exception whose own [__str__] raises. *)
Definition script_bad_str : string :=
  "class Mute(Exception):" +:+ nl
  +:+ "    def __str__(self):" +:+ nl
  +:+ "        raise RuntimeError('no text')" +:+ nl
  +:+ "raise Mute()".

Definition mute : pyexc :=
  PyExcStrRaises (ExceptionClass "Mute") (PyExc (ExceptionClass "RuntimeError") "no text").

(** What the interpreter does with each of these bodies. *)
Definition demo_exec (content : string) (globals : gmap string pyval)
    (s : SysState) : SysState * option pyexc :=
  if String.eqb content script_hello then (py_print "hi" s, None)
  else if String.eqb content script_raise
  then (py_print "before" s, Some (PyExc (ExceptionClass "ValueError") "boom"))
  else if String.eqb content script_exit then (s, Some (PyExc SystemExit "1"))
  else if String.eqb content script_bad_str then (s, Some mute)
  else (s, None).

Definition english (key : string) : string :=
  if String.eqb key "validation_warnings" then "Script Validation Warnings"
  else if String.eqb key "error_executing" then "Error executing script"
  else if String.eqb key "script_executed" then "Script executed successfully!"
  else if String.eqb key "output_captured" then "Output captured from script"
  else if String.eqb key "script_error" then "Script Error"
  else if String.eqb key "error" then "Error"
  else if String.eqb key "check_log" then "Check QGIS log for more details."
  else key.

Definition is_ascii_letter (c : ascii) : bool := in_range 65 90 c || in_range 97 122 c.

Definition upper_ascii (c : ascii) : ascii :=
  if in_range 97 122 c then ascii_of_N (code c - 32) else c.

(** [str.title] on text without letters beyond [a-zA-Z]. *)
Fixpoint title_from (previous_is_cased : bool) (s : string) : string :=
  match s with
  | EmptyString => EmptyString
  | String c r =>
      String (if previous_is_cased then lower_char c else upper_ascii c)
             (title_from (is_ascii_letter c) r)
  end.

Definition class_name (c : exc_class) : string :=
  match c with
  | SystemExit => "SystemExit"
  | KeyboardInterrupt => "KeyboardInterrupt"
  | GeneratorExit => "GeneratorExit"
  | OtherBaseException n => n
  | ExceptionClass n => n
  end.

Definition env : Env :=
  {| scripts_dir := "/plugin/scripts";
     QT_VERSION_STR := "5.15.3";
     tr := english;
     os_path := posixpath;
     str_title := title_from false;
     py_compile := fun _ _ => CompileOk;
     py_exec := demo_exec;
     format_exc := fun e =>
       "Traceback (most recent call last):" +:+ nl
       +:+ class_name (exc_cls e) +:+ ": "
       +:+ match py_str e with
           | inl msg => msg
           | inr _ => "<exception str() failed>"
           end +:+ nl;
     question_reply := fun _ _ _ => Yes |}.

(** The same host with a user who answers no. *)
Definition env_no : Env :=
  {| scripts_dir := scripts_dir env; QT_VERSION_STR := QT_VERSION_STR env;
     tr := tr env; os_path := os_path env; str_title := str_title env;
     py_compile := py_compile env; py_exec := py_exec env;
     format_exc := format_exc env;
     question_reply := fun _ _ _ => No |}.

Definition hello_py : string := "/plugin/scripts/hello.py".
Definition raise_py : string := "/plugin/scripts/raise.py".
Definition exit_py : string := "/plugin/scripts/exit.py".
Definition risky_py : string := "/plugin/scripts/risky.py".
Definition validated_py : string := "/plugin/scripts/validated.py".
Definition two_strings_py : string := "/plugin/scripts/two_strings.py".
Definition missing_py : string := "/plugin/scripts/missing.py".

Definition disk : gmap string file_state :=
  <[hello_py := Readable script_hello]>
  (<[raise_py := Readable script_raise]>
  (<[exit_py := Readable script_exit]>
  (<[risky_py := Readable script_risky]>
  (<[validated_py := Readable script_validated]>
  (<[two_strings_py := Readable script_two_strings]> ∅))))).

Definition sys0 : SysState :=
  Sys ["/usr/lib/python3"] ConsoleOut ConsoleErr
      EmptyString EmptyString EmptyString EmptyString.

(** The plug-in just constructed: nothing loaded, nothing acknowledged. *)
Definition fresh : World :=
  Mk disk true
     ["hello.py"; "raise.py"; "exit.py"; "risky.py"; "validated.py";
      "two_strings.py"; "__init__.py"; "notes.txt"]
     sys0 ∅ ∅ ∅ [].

Definition loaded : World := load_scripts env fresh.

(** The same plug-in after [bad_str.py] was put into the folder. *)
Definition bad_str_py : string := "/plugin/scripts/bad_str.py".

Definition loaded_with_bad_str : World :=
  set_files (<[bad_str_py := Readable script_bad_str]> disk) true
            ("bad_str.py" :: listdir fresh) loaded.

(** One session of the plug-in. *)
Definition session : list op :=
  [Reload; Run validated_py true; Run risky_py false; Run validated_py false;
   Reload; Run hello_py true].

End Demo.

Local Close Scope N_scope.

(* ===================================================================== *)
(** ** What a run shows to the outside *)
(* ===================================================================== *)

Module Observe.
Import PyStr Host Executor Metadata Manager.

(** The events a step added to the trace. *)
Definition new_events (w w' : World) : list event :=
  drop (length (events w)) (events w').

Definition is_question (ev : event) : bool :=
  match ev with EvQuestion _ _ _ => true | _ => false end.

(** How many confirmation prompts a trace holds. *)
Definition questions (evs : list event) : nat :=
  length (filter (fun ev => is_question ev = true) evs).

(** The prompts shown by [execute_script env p capture w]. *)
Definition prompts_of_run (env : Env) (p : string) (capture : bool) (w : World) : nat :=
  questions (new_events w (fst (execute_script env p capture w))).

(** The registry holds a record for the script and it is validated. *)
Definition record_validated (env : Env) (p : string) (w : World) : Prop :=
  exists r, scripts w !! basename (os_path env) p = Some r /\ validated r = true.

(** The run of [p] from [w] asked for confirmation and was told yes. *)
Definition answered_yes (env : Env) (p : string) (w : World) : Prop :=
  exists title text,
    EvQuestion title text Yes ∈ new_events w (fst (execute_script env p false w)).

(** The namespaces handed to [exec] in a trace. *)
Definition exec_namespaces (evs : list event) : list (gmap string pyval) :=
  omap (fun ev => match ev with EvExec _ ns => Some ns | _ => None end) evs.

End Observe.

(* ===================================================================== *)
(** ** Translator *)
(* ===================================================================== *)

Module Translator.
Import PyStr.

(** The text whose UTF-8 encoding is [s], for code points below 256: the
    tables below are written as the source shows them. *)
Fixpoint of_utf8 (s : string) : string :=
  match s with
  | EmptyString => EmptyString
  | String a t =>
      match t with
      | String b r =>
          if (code a =? 194)%N then String b (of_utf8 r)
          else if (code a =? 195)%N then String (ascii_of_N (code b + 64)) (of_utf8 r)
          else String a (of_utf8 t)
      | EmptyString => s
      end
  end.

Definition language_map : gmap string string :=
  <["it" := "it_IT"]> (<["de" := "de_DE"]> (<["fr" := "fr_FR"]>
  (<["es" := "es_ES"]> (<["pt" := "pt_BR"]> ∅)))).

(** [locale[:2].lower()] *)
Definition language_of (locale : string) : string :=
  lower (String.substring 0 2 locale).

(** [detect_qgis_language], given the value of the setting
    [locale/userLocale]. *)
Definition detect_qgis_language (locale : string) : string :=
  let language := language_of locale in
  default language (language_map !! language).

(** A dict display of strings: later keys overwrite earlier ones. *)
Definition table_of (items : list (string * string)) : gmap string string :=
  foldl (fun m kv => <[kv.1 := kv.2]> m) ∅ items.

Definition en_items : list (string * string) :=
  [ ("script_manager", "Script Manager");
    ("script_browser", "Script Browser");
    ("quick_access", "Quick Access");
    ("reload_scripts", "Reload Scripts");
    ("open_scripts_folder", "Open Scripts Folder");
    ("about", "About");
    ("no_scripts_found", "No scripts found");
    ("available_scripts", "Available Scripts");
    ("scripts_found", "scripts found");
    ("scripts", "Scripts:");
    ("select_script", "Select a script");
    ("description", "Description:");
    ("location", "Location:");
    ("file", "File:");
    ("execute_script", "Execute Script");
    ("refresh_list", "Refresh List");
    ("open_folder", "Open Folder");
    ("close", "Close");
    ("no_script_selected", "No script selected");
    ("output", "Output");
    ("console_output", "Console Output");
    ("clear_output", "Clear Output");
    ("warnings", "Warnings");
    ("script_executed", "Script executed successfully!");
    ("script_executed_warnings", "Script executed with warnings");
    ("error_executing", "Error executing script");
    ("scripts_reloaded", "Scripts reloaded");
    ("browser_opened", "Browser opened with");
    ("no_scripts_warning", "No scripts found in folder");
    ("error_opening_folder", "Error opening folder");
    ("output_captured", "Output captured from script");
    ("about_title", "Script Manager v2.0");
    ("about_subtitle", "PyQGIS Script Management Plugin");
    ("about_description", "A robust environment for managing, executing, and debugging PyQGIS scripts within QGIS.");
    ("about_features", "Features");
    ("about_feature_1", "Script Browser with integrated console and output capture");
    ("about_feature_2", "Customizable toolbar with favorite script buttons");
    ("about_feature_3", "Safe execution with pre-validation and error handling");
    ("about_feature_4", "Automatic file monitoring and instant reloading");
    ("about_feature_5", "Full Qt5/Qt6 compatibility");
    ("about_scripts_loaded", "Scripts loaded");
    ("about_scripts_folder", "Scripts folder");
    ("about_docstring_ref", "Docstring Reference");
    ("about_author", "Author");
    ("about_original", "Based on");
    ("error", "Error");
    ("script_error", "Script Error");
    ("validation_warnings", "Script Validation Warnings");
    ("check_log", "Check QGIS log for more details.");
    ("tooltip_browser", "Open browser with detailed script descriptions and output capture");
    ("tooltip_reload", "Reload all scripts from folder");
    ("tooltip_folder", "Open the folder where scripts are stored");
    ("tooltip_about", "Information about Script Manager");
    ("toolbar_script_manager", "Script Manager");
    ("toolbar_reload", "R");
    ("toolbar_open_folder", "F") ].

Definition pt_BR_items : list (string * string) :=
  [ ("script_manager", "Gerenciador de Scripts");
    ("script_browser", "Navegador de Scripts");
    ("quick_access", of_utf8 "Acesso Rápido");
    ("reload_scripts", "Recarregar Scripts");
    ("open_scripts_folder", "Abrir Pasta de Scripts");
    ("about", "Sobre");
    ("no_scripts_found", "Nenhum script encontrado");
    ("available_scripts", of_utf8 "Scripts Disponíveis");
    ("scripts_found", "scripts encontrados");
    ("scripts", "Scripts:");
    ("select_script", "Selecione um script");
    ("description", of_utf8 "Descrição:");
    ("location", of_utf8 "Localização:");
    ("file", "Arquivo:");
    ("execute_script", "Executar Script");
    ("refresh_list", "Atualizar Lista");
    ("open_folder", "Abrir Pasta");
    ("close", "Fechar");
    ("no_script_selected", "Nenhum script selecionado");
    ("output", of_utf8 "Saída");
    ("console_output", of_utf8 "Saída do Console");
    ("clear_output", of_utf8 "Limpar Saída");
    ("warnings", "Avisos");
    ("script_executed", "Script executado com sucesso!");
    ("script_executed_warnings", "Script executado com avisos");
    ("error_executing", "Erro ao executar script");
    ("scripts_reloaded", "Scripts recarregados");
    ("browser_opened", "Navegador aberto com");
    ("no_scripts_warning", "Nenhum script encontrado na pasta");
    ("error_opening_folder", "Erro ao abrir pasta");
    ("output_captured", of_utf8 "Saída capturada do script");
    ("about_title", "Gerenciador de Scripts v2.0");
    ("about_subtitle", "Plugin de Gerenciamento de Scripts PyQGIS");
    ("about_description", "Um ambiente robusto para gerenciar, executar e depurar scripts PyQGIS dentro do QGIS.");
    ("about_features", "Recursos");
    ("about_feature_1", of_utf8 "Navegador de Scripts com console integrado e captura de saída");
    ("about_feature_2", of_utf8 "Barra de ferramentas personalizável com botões de scripts favoritos");
    ("about_feature_3", of_utf8 "Execução segura com pré-validação e tratamento de erros");
    ("about_feature_4", of_utf8 "Monitoramento automático de arquivos e recarregamento instantâneo");
    ("about_feature_5", "Compatibilidade completa com Qt5/Qt6");
    ("about_scripts_loaded", "Scripts carregados");
    ("about_scripts_folder", "Pasta de scripts");
    ("about_docstring_ref", of_utf8 "Referência do Docstring");
    ("about_author", "Autor");
    ("about_original", "Baseado em");
    ("error", "Erro");
    ("script_error", "Erro no Script");
    ("validation_warnings", of_utf8 "Avisos de Validação do Script");
    ("check_log", "Verifique o log do QGIS para mais detalhes.");
    ("tooltip_browser", of_utf8 "Abrir navegador com descrições detalhadas dos scripts e captura de saída");
    ("tooltip_reload", "Recarregar todos os scripts da pasta");
    ("tooltip_folder", of_utf8 "Abrir a pasta onde os scripts são armazenados");
    ("tooltip_about", of_utf8 "Informações sobre o Gerenciador de Scripts");
    ("toolbar_script_manager", "Gerenciador de Scripts");
    ("toolbar_reload", "R");
    ("toolbar_open_folder", "F") ].

Definition load_translations : gmap string (gmap string string) :=
  <["pt_BR" := table_of pt_BR_items]> (<["en" := table_of en_items]> ∅).

Record Translator := {
  current_language : string;
  translations : gmap string (gmap string string) }.

(** [Translator.tr(key, fallback)]; [None] stands for the omitted fallback. *)
Definition tr (t : Translator) (key : string) (fallback : option string) : string :=
  let fallback := default key fallback in
  match translations t !! current_language t with
  | Some table => default fallback (table !! key)
  | None =>
      match translations t !! "en" with
      | Some table => default fallback (table !! key)
      | None => fallback
      end
  end.

(** The module's [_translator], for a host whose locale setting is [locale]. *)
Definition _translator (locale : string) : Translator :=
  {| current_language := detect_qgis_language locale;
     translations := load_translations |}.

End Translator.

(* ===================================================================== *)
(** ** Names for what discovery and a run go through *)
(* ===================================================================== *)

Module Views.
Import PyStr Host Executor Metadata Manager Observe.

(** The file names [load_scripts] looks at. *)
Definition candidate (filename : string) : bool :=
  endswith filename ".py" && negb (startswith filename "__").

(** The path [load_scripts] gives to the script called [filename]. *)
Definition script_path_of (env : Env) (filename : string) : string :=
  join (os_path env) (scripts_dir env) filename.

(** What [get_script_info] makes of that script. *)
Definition discovered (env : Env) (w : World) (filename : string) : option ScriptRecord :=
  snd (get_script_info env (script_path_of env filename) w).

(** The listed file is a candidate and discovery accepts it. *)
Definition loads (env : Env) (w : World) (filename : string) : bool :=
  candidate filename
  && match discovered env w filename with Some _ => true | None => false end.

(** The listed file is a candidate and discovery rejects it. *)
Definition fails (env : Env) (w : World) (filename : string) : bool :=
  candidate filename
  && match discovered env w filename with Some _ => false | None => true end.

Definition is_warning_log (ev : event) : bool :=
  match ev with EvLog _ _ Warning => true | _ => false end.

(** The summary line [load_scripts] logs. *)
Definition summary (loaded failed : nat) : event :=
  EvLog ("Loaded " +:+ str_of_nat loaded +:+ " scripts, "
         +:+ str_of_nat failed +:+ " errors") tag Info.

(** Events the user sees: status bar messages and dialogs. *)
Definition is_visible (ev : event) : bool :=
  match ev with
  | EvStatus _ _ _ | EvQuestion _ _ _ | EvCritical _ _ => true
  | EvLog _ _ _ | EvExec _ _ => false
  end.



(** The text holds three double quotes or three single quotes in a row. *)
Fixpoint has_triple_quote (s : string) : bool :=
  match s with
  | EmptyString => false
  | String _ r =>
      startswith s (String DQ (String DQ (String DQ EmptyString)))
      || startswith s (String SQ (String SQ (String SQ EmptyString)))
      || has_triple_quote r
  end.

(** The cursor reached from [cur] once the prefix [s] of what remains has
    been consumed. *)
Fixpoint cursor_after (s : string) (cur : Re.cursor) : Re.cursor :=
  match s with
  | EmptyString => cur
  | String a r =>
      match Re.rest cur with
      | String _ t => cursor_after r (Re.Cursor (Some a) t (S (Re.pos cur)))
      | EmptyString => cur
      end
  end.

(** Every character of [s] passes [test]. *)
Fixpoint all_chars (test : ascii -> bool) (s : string) : bool :=
  match s with
  | EmptyString => true
  | String a r => test a && all_chars test r
  end.

(** [s] is empty or its first character does not pass [test]. *)
Definition starts_off (test : ascii -> bool) (s : string) : bool :=
  match s with
  | EmptyString => true
  | String a _ => negb (test a)
  end.

Definition not_newline (c : ascii) : bool := negb (ascii_eqb c NL).

(** [t] is [field] up to case when [ignorecase] holds, and [field] itself
    otherwise. *)
Fixpoint same_text (ignorecase : bool) (field t : string) : bool :=
  match field, t with
  | EmptyString, EmptyString => true
  | String c f, String a t' => Re.lit_eq ignorecase c a && same_text ignorecase f t'
  | _, _ => false
  end.

(** [text] begins with [pat], up to case when [ignorecase] holds. *)
Fixpoint starts_with (ignorecase : bool) (pat text : string) : bool :=
  match pat with
  | EmptyString => true
  | String c f =>
      match text with
      | String a t => Re.lit_eq ignorecase c a && starts_with ignorecase f t
      | EmptyString => false
      end
  end.

(** At no place of [gap], read on into [following], does the name [field]
    stand with a colon after it (case ignored). *)
Fixpoint field_free (field gap following : string) : bool :=
  match gap with
  | EmptyString => true
  | String a g =>
      negb (starts_with true (field +:+ ":") (String a (g +:+ following)))
      && field_free field g following
  end.

(** The three quotes that open a docstring. *)
Definition opener (c : ascii) : string := String c (String c (String c EmptyString)).

(** The loop of the greedy star of [Re.run], with its fuel as an argument. *)
Definition star_loop (ic : bool) (R : Type) (r : Re.regex)
    (k : Re.cursor -> option string -> option R)
    : nat -> Re.cursor -> option string -> option R :=
  fix loop (fuel : nat) (cur : Re.cursor) (cap : option string) : option R :=
    match fuel with
    | O => k cur cap
    | S fuel' =>
        Re.orelse
          (Re.run ic R r cur cap (fun cur' cap' =>
             if (Re.pos cur' <=? Re.pos cur)%nat then None else loop fuel' cur' cap'))
          (k cur cap)
    end.

(** The loop of the lazy star. *)
Definition lazy_loop (ic : bool) (R : Type) (r : Re.regex)
    (k : Re.cursor -> option string -> option R)
    : nat -> Re.cursor -> option string -> option R :=
  fix loop (fuel : nat) (cur : Re.cursor) (cap : option string) : option R :=
    match fuel with
    | O => k cur cap
    | S fuel' =>
        Re.orelse
          (k cur cap)
          (Re.run ic R r cur cap (fun cur' cap' =>
             if (Re.pos cur' <=? Re.pos cur)%nat then None else loop fuel' cur' cap'))
    end.

(** The rest of the field pattern, after [[\s\S]*?]. *)
Definition field_tail (field : string) : Re.regex :=
  Re.Seq (Re.lits field)
    (Re.Seq (Re.Lit ":"%char)
       (Re.Seq (Re.Star Re.Space) (Re.Group (Re.Plus Re.NotNewline)))).

(** The ways a run can end well. *)
Definition ended_well (o : outcome) : Prop :=
  o = Returned (RetBool true)
  \/ exists out err ws, o = Returned (RetTuple true out err ws).

(** How many error dialogs and how many status messages a trace holds. *)
Definition is_critical (ev : event) : bool :=
  match ev with EvCritical _ _ => true | _ => false end.

Definition is_status (ev : event) : bool :=
  match ev with EvStatus _ _ _ => true | _ => false end.

Definition criticals (evs : list event) : nat :=
  length (filter (fun ev => is_critical ev = true) evs).

Definition statuses (evs : list event) : nat :=
  length (filter (fun ev => is_status ev = true) evs).

(** The texts passed to [exec] in a trace. *)
Definition exec_contents (evs : list event) : list string :=
  omap (fun ev => match ev with EvExec c _ => Some c | _ => None end) evs.




End Views.

(* ===================================================================== *)
(** ** Properties of the Risk Scanner *)
(* ===================================================================== *)

Module ScannerSpec.
Import PyStr Re Host Scanner Demo.

Lemma split_lines_nonempty (s : string) : split_lines s <> [].
Proof.
  induction s as [|c r IH]; simpl; [discriminate|].
  destruct (ascii_eqb c NL); [discriminate|].
  destruct (split_lines r); discriminate.
Qed.

(** Splitting distributes over a newline between two texts. *)
Lemma split_lines_app (a b : string) :
  split_lines (a +:+ String NL b) = split_lines a ++ split_lines b.
Proof.
  induction a as [|c r IH]; simpl.
  - reflexivity.
  - destruct (ascii_eqb c NL).
    + now rewrite IH.
    + rewrite IH. pose proof (split_lines_nonempty r) as Hne.
      destruct (split_lines r); [congruence|reflexivity].
Qed.

Lemma split_lines_single (c : string) :
  contains_char NL c = false -> split_lines c = [c].
Proof.
  induction c as [|x r IH]; simpl; [reflexivity|].
  unfold ascii_eqb at 1. intros H. apply orb_false_iff in H as [Hx Hr].
  unfold ascii_eqb. rewrite Hx, (IH Hr). reflexivity.
Qed.

Lemma code_of_lines (text : string) : code_of text = join_lines (code_lines text).
Proof. reflexivity. Qed.

Lemma code_lines_app (a b : string) :
  code_lines (a +:+ String NL b) = code_lines a ++ code_lines b.
Proof. unfold code_lines. now rewrite split_lines_app, filter_app. Qed.

Lemma code_lines_comment (c : string) :
  is_comment_line c = true -> contains_char NL c = false -> code_lines c = [].
Proof.
  intros Hc Hn. unfold code_lines. rewrite (split_lines_single c Hn).
  rewrite filter_cons. destruct (decide (is_comment_line c = false)) as [E|_];
    [congruence|reflexivity].
Qed.

Lemma nl_append (x : string) : nl +:+ x = String NL x.
Proof. reflexivity. Qed.

(** The scanner sees a text only through its code lines. *)
Lemma validate_by_code_lines (s t : string) :
  code_lines s = code_lines t ->
  validate_script_imports s = validate_script_imports t.
Proof.
  intros H. unfold validate_script_imports. now rewrite !code_of_lines, H.
Qed.

Lemma all_warnings_NoDup : NoDup all_warnings.
Proof. apply (bool_decide_unpack _). vm_compute. reflexivity. Qed.

Lemma validate_sublist (s : string) :
  validate_script_imports s `sublist_of` all_warnings.
Proof.
  unfold validate_script_imports, all_warnings.
  apply fmap_sublist, sublist_filter.
Qed.

(** C7. For every script text the scanner's warnings are a subsequence of
    the fixed list of the seven pattern warnings, taken in the order of
    [RISKY_PATTERNS]: each pattern contributes at most one warning however
    often it occurs, and the order is the pattern order, whatever the
    order of the lines of the text. *)
Theorem scanner_one_warning_per_pattern_in_pattern_order (s : string) :
  validate_script_imports s `sublist_of` all_warnings
  /\ NoDup (validate_script_imports s)
  /\ all_warnings = warning_text <$>
       ["subprocess.call"; "subprocess.run"; "subprocess.Popen"; "os.system()";
        "eval()"; "exec()"; "__import__()"].
Proof.
  split; [apply validate_sublist|]. split.
  - eapply sublist_NoDup; [apply all_warnings_NoDup|apply validate_sublist].
  - reflexivity.
Qed.

(** Three occurrences of one pattern give one warning. *)
Example popen_repeated :
  validate_script_imports
    ("subprocess.Popen(a)" +:+ nl +:+ "subprocess.Popen(b)" +:+ nl
     +:+ "x = subprocess.Popen(c)")
  = [warning_text "subprocess.Popen"].
Proof. vm_compute. reflexivity. Qed.

(** [eval] comes first in the text and last in the warnings. *)
Example pattern_order_not_line_order :
  validate_script_imports
    ("eval(c)" +:+ nl +:+ "os.system('a')" +:+ nl +:+ "subprocess.call(b)")
  = [warning_text "subprocess.call"; warning_text "os.system()"; warning_text "eval()"].
Proof. vm_compute. reflexivity. Qed.

(** C4, as the code has it. A line whose first non-blank character is [#]
    is dropped before the patterns are matched: deleting such a line from a
    text (between two lines, at the start, at the end) leaves the scanner's
    result unchanged, and a text that is only such a line gives no warning. *)
Theorem comment_lines_are_not_scanned (a b c : string) :
  is_comment_line c = true ->
  contains_char NL c = false ->
  validate_script_imports (a +:+ nl +:+ c +:+ nl +:+ b)
    = validate_script_imports (a +:+ nl +:+ b)
  /\ validate_script_imports (c +:+ nl +:+ b) = validate_script_imports b
  /\ validate_script_imports (a +:+ nl +:+ c) = validate_script_imports a
  /\ validate_script_imports c = [].
Proof.
  intros Hc Hn. pose proof (code_lines_comment c Hc Hn) as Hcl.
  repeat split.
  - apply validate_by_code_lines.
    now rewrite !nl_append, !code_lines_app, Hcl.
  - apply validate_by_code_lines.
    now rewrite nl_append, code_lines_app, Hcl.
  - apply validate_by_code_lines.
    rewrite nl_append, code_lines_app, Hcl. apply app_nil_r.
  - unfold validate_script_imports. rewrite code_of_lines, Hcl.
    vm_compute. reflexivity.
Qed.

Lemma comment_lines_are_not_scanned_witness :
  validate_script_imports
    ("import os" +:+ nl +:+ "  # os.system('ls')" +:+ nl +:+ "print(1)")
    = validate_script_imports ("import os" +:+ nl +:+ "print(1)")
  /\ validate_script_imports ("  # os.system('ls')" +:+ nl +:+ "print(1)")
     = validate_script_imports "print(1)"
  /\ validate_script_imports ("import os" +:+ nl +:+ "  # os.system('ls')")
     = validate_script_imports "import os"
  /\ validate_script_imports "  # os.system('ls')" = [].
Proof.
  apply (comment_lines_are_not_scanned "import os" "print(1)" "  # os.system('ls')");
    reflexivity.
Defined.

(** C4, as stated, fails: a risky call that is only an example inside the
    docstring, on a line that does not start with [#], is reported. *)
Lemma docstring_example_is_reported :
  validate_script_imports script_docstring_example = [warning_text "os.system()"].
Proof. vm_compute. reflexivity. Qed.

(** Dropping a comment line joins its neighbours, and a pattern's [\s*]
    spans the new line break. *)
Example call_split_around_a_comment :
  validate_script_imports
    ("x = (subprocess" +:+ nl +:+ "# note" +:+ nl +:+ ".call(cmd))")
  = [warning_text "subprocess.call"].
Proof. vm_compute. reflexivity. Qed.

End ScannerSpec.

(* ===================================================================== *)
(** ** Properties of the Metadata Parser *)
(* ===================================================================== *)

Module MetadataSpec.
Import PyStr Re Host Metadata Manager Demo.


(** Fields inside the first docstring are read as documented. *)
Example fields_of_first_docstring :
  snd (get_script_info env validated_py fresh)
  = Some {| name := "Validated"; path := validated_py;
            description := "lists files"; toolbar := false;
            toolbar_label := FNone; validated := true |}.
Proof. vm_compute. reflexivity. Qed.

End MetadataSpec.

(* ===================================================================== *)
(** ** Properties of the Script Runner *)
(* ===================================================================== *)

Module RunnerSpec.
Import PyStr Host Executor Metadata Manager Observe Views Demo.

Lemma questions_app (l k : list event) : questions (l ++ k) = questions l + questions k.
Proof. unfold questions. now rewrite filter_app, length_app. Qed.

Lemma exec_namespaces_app (l k : list event) :
  exec_namespaces (l ++ k) = exec_namespaces l ++ exec_namespaces k.
Proof. unfold exec_namespaces. apply omap_app. Qed.

Lemma exec_namespaces_exec content ns (tl : list event) :
  exec_namespaces (EvExec content ns :: tl) = ns :: exec_namespaces tl.
Proof. reflexivity. Qed.

Lemma new_events_app (w w' : World) (tl : list event) :
  events w' = events w ++ tl -> new_events w w' = tl.
Proof. intros H. unfold new_events. rewrite H. apply drop_app_length. Qed.

(** *** The confirmation block *)

Lemma confirm_frame env p c ws w :
  let w1 := fst (confirm env p c ws w) in
  sys w1 = sys w /\ scripts w1 = scripts w /\ files w1 = files w.
Proof.
  cbv zeta. unfold confirm. destruct ws; simpl; [easy|].
  destruct c; simpl; [easy|].
  destruct (needs_prompt env p w); simpl; [|easy].
  destruct (question_reply _ _ _ _); simpl; [|easy].
  destruct (is_validated_of env p w); easy.
Qed.

(** What the block does to the trace and to the acknowledgement set, by
    cases: no prompt, a prompt answered no, a prompt answered yes. *)
Lemma confirm_cases env p c ws w :
  let r := confirm env p c ws w in
  let w1 := fst r in
  (events w1 = events w
   /\ _validated_acknowledged w1 = _validated_acknowledged w
   /\ snd r = true
   /\ (ws = [] \/ c = true \/ needs_prompt env p w = false))
  \/ (c = false /\ ws <> [] /\ needs_prompt env p w = true
      /\ exists a, events w1 = events w
                     ++ [EvQuestion (question_title env) (question_text env ws) a]
         /\ ((a = No /\ snd r = false
              /\ _validated_acknowledged w1 = _validated_acknowledged w)
             \/ (a = Yes /\ snd r = true
                 /\ _validated_acknowledged w1
                    = if is_validated_of env p w
                      then {[p]} ∪ _validated_acknowledged w
                      else _validated_acknowledged w))).
Proof.
  cbv zeta. unfold confirm.
  destruct ws as [|x ws']; simpl; [left; repeat split; auto; fail|].
  destruct c; simpl; [left; repeat split; auto; fail|].
  destruct (needs_prompt env p w) eqn:Hn; simpl; [|left; repeat split; auto; fail].
  right. split; [reflexivity|]. split; [discriminate|]. split; [reflexivity|].
  destruct (question_reply _ _ _ _) eqn:Ha; simpl.
  - exists Yes. destruct (is_validated_of env p w); simpl;
      (split; [reflexivity|]); right; auto.
  - exists No. split; [reflexivity|]. left. auto.
Qed.

(** *** The inner [try] *)

Lemma try_body_frame env p content ns c l w w2 l2 r :
  try_body env p content ns c l w = (w2, l2, r) ->
  scripts w2 = scripts w
  /\ _validated_acknowledged w2 = _validated_acknowledged w
  /\ files w2 = files w
  /\ exists tl, events w2 = events w ++ EvExec content ns :: tl
                /\ questions tl = 0%nat /\ exec_namespaces tl = [].
Proof.
  unfold try_body, capture_output, get_captured_output, do_exec.
  destruct (bool_decide _); destruct c; simpl;
    destruct (py_exec env content ns _) as [s' [e|]]; simpl;
    repeat match goal with
           | |- context [if nonempty ?x then _ else _] => destruct (nonempty x)
           end;
    intros [= <- <- <-]; simpl; repeat split;
    rewrite <- ?app_assoc; simpl; eexists; (split; [reflexivity|]); split; reflexivity.
Qed.

(** The exception the inner [try] ends with was raised by the body. *)
Lemma try_body_raised env p content ns c l w w2 l2 e :
  try_body env p content ns c l w = (w2, l2, Some e) ->
  exists s, snd (py_exec env content ns s) = Some e.
Proof.
  unfold try_body, capture_output, get_captured_output, do_exec.
  destruct (bool_decide _); destruct c; simpl;
    match goal with
    | |- context [py_exec env content ns ?s] =>
        destruct (py_exec env content ns s) as [s' [e'|]] eqn:E
    end; simpl;
    repeat match goal with
           | |- context [if nonempty ?x then _ else _] => destruct (nonempty x)
           end;
    intros [= <- <- <-]; eexists; rewrite E; reflexivity.
Qed.

(** When the body raises, the locals are as they were. *)
Lemma try_body_raised_locals env p content ns c l w w2 l2 e :
  try_body env p content ns c l w = (w2, l2, Some e) -> l2 = l.
Proof.
  unfold try_body, capture_output, get_captured_output, do_exec.
  destruct (bool_decide _); destruct c; simpl;
    destruct (py_exec env content ns _) as [s' [e'|]]; simpl;
    repeat match goal with
           | |- context [if nonempty ?x then _ else _] => destruct (nonempty x)
           end;
    now intros [= <- <- <-].
Qed.

(** *** The [except] block *)

Lemma except_block_frame env p c l e w :
  let w' := fst (except_block env p c l e w) in
  sys w' = sys w /\ scripts w' = scripts w
  /\ _validated_acknowledged w' = _validated_acknowledged w
  /\ files w' = files w
  /\ exists tl, events w' = events w ++ tl
                /\ questions tl = 0%nat /\ exec_namespaces tl = [].
Proof.
  unfold except_block. destruct (py_str e) as [msg|raised].
  - destruct c; simpl; repeat split;
      rewrite <- ?app_assoc; simpl; eexists; (split; [reflexivity|]); split; reflexivity.
  - simpl. repeat split. exists []. now rewrite app_nil_r.
Qed.

Lemma except_block_returns env p c l e w msg :
  py_str e = inl msg ->
  snd (except_block env p c l e w)
  = final_return c (Locals (success l) (captured_output l)
                           (detailed_error env p e) (validation_warnings l)).
Proof. intros H. unfold except_block. now rewrite H. Qed.

(** *** The whole run *)

Lemma execute_script_unreadable env p c w e :
  read_file w p = inr e ->
  execute_script env p c w
  = except_block env p c (Locals false EmptyString EmptyString []) e w.
Proof. intros H. unfold execute_script. now rewrite H. Qed.

(** After the confirmation block the run only appends events that are
    neither prompts nor calls of [exec] with another namespace, and leaves
    the registry, the files and the acknowledgement set alone. *)
Lemma execute_script_after_confirm env p c w content :
  read_file w p = inl content ->
  let w1 := fst (confirm env p c (Scanner.validate_script_imports content) w) in
  let w' := fst (execute_script env p c w) in
  _validated_acknowledged w' = _validated_acknowledged w1
  /\ scripts w' = scripts w
  /\ files w' = files w
  /\ exists tl, events w' = events w1 ++ tl
                /\ questions tl = 0
                /\ Forall (fun ns => ns = prepare_safe_namespace env p)
                          (exec_namespaces tl).
Proof.
  intros Hr. cbv zeta. unfold execute_script. rewrite Hr. simpl.
  pose proof (confirm_frame env p c (Scanner.validate_script_imports content) w)
    as (_ & Hs & Hf). cbv zeta in Hs, Hf.
  destruct (confirm env p c _ w) as [w1 go]. simpl in *.
  destruct go.
  2:{ simpl. repeat split; auto. exists []. rewrite app_nil_r. repeat split; auto. }
  destruct (try_body env p content _ c _ w1) as [[w2 l2] r] eqn:Ht.
  apply try_body_frame in Ht as (Hs2 & Ha2 & Hf2 & tl & He2 & Hq2 & Hn2).
  destruct r as [e|]; [destruct (is_Exception (exc_cls e))|].
  - match goal with
    | |- context [except_block env p c l2 e ?w3] =>
        pose proof (except_block_frame env p c l2 e w3)
          as (_ & Hs3 & Ha3 & Hf3 & tl3 & He3 & Hq3 & Hn3)
    end.
    cbv zeta in *. rewrite Ha3, Hs3, Hf3, He3. simpl.
    repeat split; try congruence.
    exists (EvExec content (prepare_safe_namespace env p) :: tl ++ tl3).
    rewrite He2, <- app_assoc. split; [reflexivity|]. split.
    + change (questions (EvExec content (prepare_safe_namespace env p) :: tl ++ tl3))
        with (questions (tl ++ tl3)). rewrite questions_app. lia.
    + rewrite exec_namespaces_exec, exec_namespaces_app, Hn2, Hn3.
      repeat constructor.
  - simpl. repeat split; try congruence.
    exists (EvExec content (prepare_safe_namespace env p) :: tl).
    rewrite He2. split; [reflexivity|]. split; [exact Hq2|].
    rewrite exec_namespaces_exec, Hn2. repeat constructor.
  - simpl. repeat split; try congruence.
    exists (EvExec content (prepare_safe_namespace env p) :: tl).
    rewrite He2. split; [reflexivity|]. split; [exact Hq2|].
    rewrite exec_namespaces_exec, Hn2. repeat constructor.
Qed.

Lemma is_validated_of_true env p w :
  is_validated_of env p w = true <-> record_validated env p w.
Proof.
  unfold is_validated_of, record_validated.
  destruct (scripts w !! basename (os_path env) p) as [r|]; split.
  - intros H. now exists r.
  - now intros (r' & [= <-] & H).
  - discriminate.
  - now intros (r' & [=] & _).
Qed.

Lemma needs_prompt_false env p w :
  needs_prompt env p w = false
  <-> record_validated env p w /\ p ∈ _validated_acknowledged w.
Proof.
  unfold needs_prompt. rewrite <- is_validated_of_true.
  destruct (is_validated_of env p w); simpl.
  - rewrite bool_decide_eq_false. split.
    + intros H. split; [reflexivity|]. now apply dec_stable.
    + intros [_ H] Hn. now apply Hn.
  - split; [discriminate|]. now intros [[=] _].
Qed.

(** An interactive run of a script with warnings shows one prompt when
    the confirmation policy asks for it, and none otherwise. *)
Lemma prompts_of_interactive_run env p w content :
  read_file w p = inl content ->
  Scanner.validate_script_imports content <> [] ->
  prompts_of_run env p false w = if needs_prompt env p w then 1 else 0.
Proof.
  intros Hr Hw. unfold prompts_of_run.
  pose proof (execute_script_after_confirm env p false w content Hr)
    as (_ & _ & _ & tl & He & Hq & _). cbv zeta in He.
  pose proof (confirm_cases env p false (Scanner.validate_script_imports content) w)
    as [(He1 & _ & _ & [H|[H|H]]) | (_ & _ & Hn & a & He1 & _)]; cbv zeta in He1.
  - contradiction.
  - discriminate.
  - rewrite H. rewrite He1 in He. rewrite (new_events_app _ _ _ He). exact Hq.
  - rewrite Hn. rewrite He1, <- app_assoc in He.
    rewrite (new_events_app _ _ _ He), questions_app, Hq. reflexivity.
Qed.

(** C5. For every interactive run of a readable script whose scan gives
    warnings: no prompt is shown if and only if the registry holds a record
    for the script with [validated = true] and the path is already in the
    acknowledgement set; in every other case exactly one prompt is shown,
    in particular when the record has [validated = false] and when there is
    no record. *)
Theorem prompt_skipped_iff_validated_and_acknowledged env p w content :
  read_file w p = inl content ->
  Scanner.validate_script_imports content <> [] ->
  (prompts_of_run env p false w = 0
   <-> record_validated env p w /\ p ∈ _validated_acknowledged w)
  /\ (~ (record_validated env p w /\ p ∈ _validated_acknowledged w)
      -> prompts_of_run env p false w = 1)
  /\ (forall r, scripts w !! basename (os_path env) p = Some r ->
                validated r = false -> prompts_of_run env p false w = 1)
  /\ (scripts w !! basename (os_path env) p = None ->
      prompts_of_run env p false w = 1).
Proof.
  intros Hr Hw. rewrite (prompts_of_interactive_run env p w content Hr Hw).
  rewrite <- needs_prompt_false.
  destruct (needs_prompt env p w) eqn:Hn.
  - split; [split; discriminate|]. repeat split; auto.
  - split; [split; auto|]. split; [intros H; now destruct H|].
    apply needs_prompt_false in Hn as [(r' & Hl & Hv) _]. split.
    + intros r Hl' Hv'. congruence.
    + intros Hl'. congruence.
Qed.

Lemma prompt_skipped_iff_validated_and_acknowledged_witness :
  (prompts_of_run env risky_py false loaded = 0
   <-> record_validated env risky_py loaded
       /\ risky_py ∈ _validated_acknowledged loaded)
  /\ (~ (record_validated env risky_py loaded
         /\ risky_py ∈ _validated_acknowledged loaded)
      -> prompts_of_run env risky_py false loaded = 1)
  /\ (forall r, scripts loaded !! basename (os_path env) risky_py = Some r ->
                validated r = false -> prompts_of_run env risky_py false loaded = 1)
  /\ (scripts loaded !! basename (os_path env) risky_py = None ->
      prompts_of_run env risky_py false loaded = 1).
Proof.
  apply (prompt_skipped_iff_validated_and_acknowledged env risky_py loaded script_risky).
  - vm_compute. reflexivity.
  - vm_compute. discriminate.
Defined.

(** A validated script asks once, then no more; one that is not validated
    asks every time. *)
Example validated_script_asks_once :
  let w1 := fst (execute_script env validated_py false loaded) in
  prompts_of_run env validated_py false loaded = 1
  /\ prompts_of_run env validated_py false w1 = 0
  /\ prompts_of_run env risky_py false (fst (execute_script env risky_py false loaded)) = 1.
Proof. vm_compute. repeat split. Qed.

(** *** The module search path *)

(** C8. For every run, in either mode, whichever way it ends (a result is
    returned after success, after a contained exception, after the user's
    no, after a read error, or an exception leaves the call), [sys.path]
    afterwards has the value it had before. *)
Theorem search_path_restored env p c w :
  sys_path (sys (fst (execute_script env p c w))) = sys_path (sys w).
Proof.
  unfold execute_script. destruct (read_file w p) as [content|e].
  - pose proof (confirm_frame env p c (Scanner.validate_script_imports content) w)
      as (Hs & _). cbv zeta in Hs. simpl.
    destruct (confirm env p c _ w) as [w1 go]. simpl in Hs.
    destruct go; [|simpl; now rewrite Hs].
    destruct (try_body env p content _ c _ w1) as [[w2 l2] r].
    destruct r as [e|]; [destruct (is_Exception (exc_cls e))|].
    + match goal with
      | |- context [except_block env p c l2 e ?w3] =>
          pose proof (except_block_frame env p c l2 e w3) as (Hs3 & _)
      end.
      cbv zeta in Hs3. rewrite Hs3. simpl. now rewrite Hs.
    + simpl. now rewrite Hs.
    + simpl. now rewrite Hs.
  - pose proof (except_block_frame env p c (Locals false EmptyString EmptyString []) e w)
      as (Hs & _). cbv zeta in Hs. now rewrite Hs.
Qed.

(** The directory is on the path while the body runs, and a body that
    edits [sys.path] does not change what is restored. *)
Example search_path_during_and_after :
  let w' := fst (execute_script env hello_py false loaded) in
  sys_path (sys w') = ["/usr/lib/python3"]
  /\ console_out (sys w') = "hi" +:+ nl.
Proof. vm_compute. split; reflexivity. Qed.

(** *** Containment of exceptions *)

(** An exception leaves [execute_script] only if the script body raised an
    exception: one that is not an instance of [Exception], which leaves as it
    is, or an instance whose [__str__] raises, and then what [str(e)] raised
    is what leaves. *)
Lemma propagated_exception_origin env p c w e' :
  snd (execute_script env p c w) = Propagated e' ->
  exists content s e,
    read_file w p = inl content
    /\ snd (py_exec env content (prepare_safe_namespace env p) s) = Some e
    /\ ((is_Exception (exc_cls e) = false /\ e' = e)
        \/ (is_Exception (exc_cls e) = true /\ py_str e = inr e')).
Proof.
  unfold execute_script. destruct (read_file w p) as [content|e0] eqn:Hr.
  - destruct (confirm env p c _ w) as [w1 go]. destruct go; [|discriminate].
    destruct (try_body env p content _ c _ w1) as [[w2 l2] r] eqn:Ht.
    destruct r as [e|]; [|destruct c; discriminate].
    apply try_body_raised in Ht as [s Hs].
    destruct (is_Exception (exc_cls e)) eqn:Hx.
    + unfold except_block. destruct (py_str e) as [msg|raised] eqn:Hstr.
      * destruct c; discriminate.
      * simpl. intros [= <-]. exists content, s, e. auto.
    + simpl. intros [= <-]. exists content, s, e. auto.
  - unfold read_file in Hr. unfold except_block.
    destruct (files w !! p) as [[content|cls msg]|]; try discriminate;
      injection Hr as <-; simpl; destruct c; discriminate.
Qed.



(** An instance of [Exception] whose [__str__] raises is not contained:
    what [str(e)] raised in the handler leaves the call, in both modes. *)
Example mute_exception_leaves_the_runner :
  snd (execute_script env bad_str_py true loaded_with_bad_str)
    = Propagated (PyExc (ExceptionClass "RuntimeError") "no text")
  /\ snd (execute_script env bad_str_py false loaded_with_bad_str)
     = Propagated (PyExc (ExceptionClass "RuntimeError") "no text").
Proof. vm_compute. split; reflexivity. Qed.


(** *** Output of a script that raises *)

(** C1 fails on the code. [raise.py] prints [before] and raises
    [ValueError]. In capture mode the run returns failure, the diagnostic
    and no warning, but its output text is empty: the buffer is read only
    after a body that ends normally. The text stays in the buffer, and the
    next captured run returns it in front of its own output. *)
Theorem output_before_exception_is_lost :
  let r := execute_script env raise_py true loaded in
  snd r = Returned (RetTuple false EmptyString
                      (detailed_error env raise_py
                         (PyExc (ExceptionClass "ValueError") "boom")) [])
  /\ output_buffer (sys (fst r)) = "before" +:+ nl
  /\ snd (execute_script env hello_py true (fst r))
     = Returned (RetTuple true ("before" +:+ nl +:+ "hi" +:+ nl) EmptyString []).
Proof. vm_compute. repeat split. Qed.

(** Whatever a body prints before it raises an [Exception], a captured run
    returns an empty output text and leaves the printed text in the buffer. *)
Lemma captured_output_dropped_on_exception env p w content text e :
  read_file w p = inl content ->
  (forall s, py_exec env content (prepare_safe_namespace env p) s
             = (py_print text s, Some e)) ->
  is_Exception (exc_cls e) = true ->
  py_str e = inl (exc_str e) ->
  let r := execute_script env p true w in
  snd r = Returned (RetTuple false EmptyString (detailed_error env p e)
                             (Scanner.validate_script_imports content))
  /\ output_buffer (sys (fst r)) = output_buffer (sys w) +:+ text +:+ nl.
Proof.
  intros Hr Hx He Hstr. cbv zeta. unfold execute_script. rewrite Hr.
  destruct (Scanner.validate_script_imports content) as [|x ws] eqn:Hw;
    unfold confirm; simpl; unfold try_body, capture_output, do_exec;
    destruct (bool_decide _); simpl; rewrite Hx; simpl; rewrite He;
    unfold except_block; rewrite Hstr; simpl; split; reflexivity.
Qed.

(** Scenario B: the user answers no; the run returns [False], the body is
    not executed and nothing is written. *)
Example refused_run_does_nothing :
  let r := execute_script env_no risky_py false loaded in
  snd r = Returned (RetBool false)
  /\ exec_namespaces (new_events loaded (fst r)) = []
  /\ sys (fst r) = sys loaded.
Proof. vm_compute. repeat split. Qed.

(** Scenario A of the same kind ends well. *)
Example hello_captured :
  snd (execute_script env hello_py true loaded)
  = Returned (RetTuple true ("hi" +:+ nl) EmptyString []).
Proof. vm_compute. reflexivity. Qed.

(** *** A script that cannot be read *)

Lemma read_file_fails w p :
  (forall content, files w !! p <> Some (Readable content)) ->
  exists e, read_file w p = inr e /\ is_Exception (exc_cls e) = true
            /\ py_str e = inl (exc_str e).
Proof.
  intros H. unfold read_file. destruct (files w !! p) as [[content|cls msg]|] eqn:E.
  - now destruct (H content).
  - eexists. repeat split; reflexivity.
  - eexists. repeat split; reflexivity.
Qed.

Lemma detailed_error_nonempty env p e : detailed_error env p e <> EmptyString.
Proof. unfold detailed_error, error_msg. simpl. discriminate. Qed.

(** C9. For every path whose file is missing or unreadable, a captured run
    returns (no exception leaves it) the tuple of failure, an empty output
    text, a non-empty diagnostic and an empty warning list, and neither the
    registry nor the acknowledgement set changes. *)
Theorem unreadable_script_is_reported env p w :
  (forall content, files w !! p <> Some (Readable content)) ->
  let r := execute_script env p true w in
  exists diagnostic,
    snd r = Returned (RetTuple false EmptyString diagnostic [])
    /\ diagnostic <> EmptyString
    /\ scripts (fst r) = scripts w
    /\ _validated_acknowledged (fst r) = _validated_acknowledged w.
Proof.
  intros H. destruct (read_file_fails w p H) as (e & Hr & _ & Hstr). cbv zeta.
  rewrite (execute_script_unreadable env p true w e Hr).
  pose proof (except_block_frame env p true (Locals false EmptyString EmptyString []) e w)
    as (_ & Hs & Ha & _). cbv zeta in Hs, Ha.
  exists (detailed_error env p e). rewrite (except_block_returns _ _ _ _ _ _ _ Hstr).
  split; [reflexivity|]. split; [apply detailed_error_nonempty|]. now split.
Qed.

Lemma unreadable_script_is_reported_witness :
  let r := execute_script env missing_py true loaded in
  exists diagnostic,
    snd r = Returned (RetTuple false EmptyString diagnostic [])
    /\ diagnostic <> EmptyString
    /\ scripts (fst r) = scripts loaded
    /\ _validated_acknowledged (fst r) = _validated_acknowledged loaded.
Proof.
  apply (unreadable_script_is_reported env missing_py loaded).
  intros content. vm_compute. discriminate.
Defined.

(** *** The execution namespace *)

Lemma prepare_safe_namespace_main env p :
  prepare_safe_namespace env p !! "__name__" = Some (PyStr "__main__")
  /\ prepare_safe_namespace env p !! "__file__" = Some (PyStr p).
Proof. split; reflexivity. Qed.

(** Every namespace a run hands to [exec] is the one built for its path. *)
Lemma run_exec_namespaces env p c w :
  Forall (fun ns => ns = prepare_safe_namespace env p)
         (exec_namespaces (new_events w (fst (execute_script env p c w)))).
Proof.
  destruct (read_file w p) as [content|e] eqn:Hr.
  - pose proof (execute_script_after_confirm env p c w content Hr)
      as (_ & _ & _ & tl & He & _ & Hn). cbv zeta in He.
    pose proof (confirm_cases env p c (Scanner.validate_script_imports content) w)
      as [(He1 & _) | (_ & _ & _ & a & He1 & _)]; cbv zeta in He1.
    + rewrite He1 in He. now rewrite (new_events_app _ _ _ He).
    + rewrite He1, <- app_assoc in He.
      rewrite (new_events_app _ _ _ He), exec_namespaces_app. simpl. exact Hn.
  - rewrite (execute_script_unreadable env p c w e Hr).
    pose proof (except_block_frame env p c (Locals false EmptyString EmptyString []) e w)
      as (_ & _ & _ & _ & tl & He & _ & Hn). cbv zeta in He.
    rewrite (new_events_app _ _ _ He), Hn. constructor.
Qed.

(** C10. For every run and every namespace it passes to [exec]: the
    namespace is the one [prepare_safe_namespace] builds for the script's
    path, it maps [__name__] to ['__main__'] and [__file__] to that path. *)
Theorem run_namespace_is_main env p c w ns :
  ns ∈ exec_namespaces (new_events w (fst (execute_script env p c w))) ->
  ns = prepare_safe_namespace env p
  /\ ns !! "__name__" = Some (PyStr "__main__")
  /\ ns !! "__file__" = Some (PyStr p).
Proof.
  intros Hin. pose proof (run_exec_namespaces env p c w) as Hall.
  rewrite Forall_forall in Hall. specialize (Hall ns Hin). subst ns.
  split; [reflexivity|]. apply prepare_safe_namespace_main.
Qed.

Lemma hello_run_namespaces :
  exec_namespaces (new_events loaded (fst (execute_script env hello_py true loaded)))
  = [prepare_safe_namespace env hello_py].
Proof. vm_compute. reflexivity. Qed.

Lemma run_namespace_is_main_witness :
  prepare_safe_namespace env hello_py
    ∈ exec_namespaces (new_events loaded (fst (execute_script env hello_py true loaded)))
  /\ prepare_safe_namespace env hello_py !! "__name__" = Some (PyStr "__main__")
  /\ prepare_safe_namespace env hello_py !! "__file__" = Some (PyStr hello_py).
Proof.
  assert (H : prepare_safe_namespace env hello_py
                ∈ exec_namespaces
                    (new_events loaded (fst (execute_script env hello_py true loaded)))).
  { rewrite hello_run_namespaces. apply list_elem_of_here. }
  split; [exact H|].
  exact (proj2 (run_namespace_is_main env hello_py true loaded _ H)).
Defined.

(** *** The acknowledgement set *)

Lemma get_script_info_acknowledged env path w :
  _validated_acknowledged (fst (get_script_info env path w))
  = _validated_acknowledged w.
Proof.
  unfold get_script_info. destruct (read_file w path); [|reflexivity].
  destruct (py_compile env _ _); reflexivity.
Qed.

Lemma add_file_to_watch_acknowledged path w :
  _validated_acknowledged (add_file_to_watch path w) = _validated_acknowledged w.
Proof. unfold add_file_to_watch. destruct (_ && _); reflexivity. Qed.

Lemma load_loop_acknowledged env names c w :
  _validated_acknowledged (fst (load_loop env names c w)) = _validated_acknowledged w.
Proof.
  revert c w. induction names as [|filename names IH]; intros c w; simpl; [reflexivity|].
  destruct (_ && _); [|apply IH].
  pose proof (get_script_info_acknowledged env
                (join (os_path env) (scripts_dir env) filename) w) as Hg.
  destruct (get_script_info env _ w) as [w1 [info|]]; simpl in Hg.
  - rewrite IH, add_file_to_watch_acknowledged. exact Hg.
  - rewrite IH. exact Hg.
Qed.

(** A reload rebuilds the registry and keeps the acknowledgements. *)
Lemma load_scripts_acknowledged env w :
  _validated_acknowledged (load_scripts env w) = _validated_acknowledged w.
Proof.
  unfold load_scripts. destruct (negb _); [reflexivity|].
  pose proof (load_loop_acknowledged env (listdir (set_scripts ∅ w)) (Counts 0 0)
                (set_scripts ∅ w)) as Hl.
  destruct (load_loop env _ _ _) as [w1 c]. exact Hl.
Qed.

(** One run leaves the set as it is, or adds its own path; it adds it only
    in interactive mode, for a validated record, after a yes. *)
Lemma run_acknowledges env p c w :
  let w' := fst (execute_script env p c w) in
  _validated_acknowledged w' = _validated_acknowledged w
  \/ (c = false /\ record_validated env p w /\ answered_yes env p w
      /\ _validated_acknowledged w' = {[p]} ∪ _validated_acknowledged w).
Proof.
  cbv zeta. destruct (read_file w p) as [content|e] eqn:Hr.
  - pose proof (execute_script_after_confirm env p c w content Hr)
      as (Ha & _ & _ & tl & He & _). cbv zeta in Ha, He.
    pose proof (confirm_cases env p c (Scanner.validate_script_imports content) w)
      as [(_ & Ha1 & _) | (-> & _ & _ & a & He1 & [(_ & _ & Ha1)|(-> & _ & Ha1)])];
      cbv zeta in Ha1; try cbv zeta in He1.
    + left. congruence.
    + left. congruence.
    + destruct (is_validated_of env p w) eqn:Hv; [right|left; congruence].
      split; [reflexivity|]. split; [now apply is_validated_of_true|].
      split; [|congruence].
      eexists _, _. rewrite He1, <- app_assoc in He.
      rewrite (new_events_app _ _ _ He). apply list_elem_of_here.
  - left. rewrite (execute_script_unreadable env p c w e Hr).
    now pose proof (except_block_frame env p c (Locals false EmptyString EmptyString [])
                      e w) as (_ & _ & Ha & _).
Qed.

Lemma run_ops_snoc env ops o w :
  run_ops env (ops ++ [o]) w = step env o (run_ops env ops w).
Proof. unfold run_ops. now rewrite foldl_snoc. Qed.

(** Entries are never removed. *)
Lemma acknowledged_grows env ops w :
  _validated_acknowledged w ⊆ _validated_acknowledged (run_ops env ops w).
Proof.
  induction ops as [|o ops IH] using rev_ind; [reflexivity|].
  rewrite run_ops_snoc. etransitivity; [exact IH|].
  destruct o as [q c| |f d ls]; simpl.
  - destruct (run_acknowledges env q c (run_ops env ops w)) as [E|(_ & _ & _ & E)];
      cbv zeta in E; rewrite E; [reflexivity|apply union_subseteq_r].
  - now rewrite load_scripts_acknowledged.
  - reflexivity.
Qed.

(** Every entry that was not there at the start was added by an
    interactive run of that path, on a validated record, after a yes. *)
Lemma acknowledged_origin env ops w p :
  p ∈ _validated_acknowledged (run_ops env ops w) ->
  p ∈ _validated_acknowledged w
  \/ exists ops1 ops2,
       ops = ops1 ++ Run p false :: ops2
       /\ record_validated env p (run_ops env ops1 w)
       /\ answered_yes env p (run_ops env ops1 w).
Proof.
  induction ops as [|o ops IH] using rev_ind; [now left|].
  rewrite run_ops_snoc. intros Hin.
  assert (Hold : p ∈ _validated_acknowledged (run_ops env ops w) ->
                 p ∈ _validated_acknowledged w
                 \/ exists ops1 ops2,
                      ops ++ [o] = ops1 ++ Run p false :: ops2
                      /\ record_validated env p (run_ops env ops1 w)
                      /\ answered_yes env p (run_ops env ops1 w)).
  { intros H. destruct (IH H) as [H'|(ops1 & ops2 & -> & Hv & Hy)]; [now left|].
    right. exists ops1, (ops2 ++ [o]). rewrite <- app_assoc. now split. }
  destruct o as [q c| |f d ls]; simpl in Hin.
  - destruct (run_acknowledges env q c (run_ops env ops w))
      as [H|(-> & Hv & Hy & H)]; cbv zeta in H; rewrite H in Hin.
    + now apply Hold.
    + apply elem_of_union in Hin as [Hq%elem_of_singleton|Hin]; [|now apply Hold].
      subst q. right. exists ops, []. now split.
  - rewrite load_scripts_acknowledged in Hin. now apply Hold.
  - now apply Hold.
Qed.

(** C6. For every sequence of runs, reloads and file edits: no entry of
    the acknowledgement set is ever removed; a path that was not in the set
    at the start and is in it at the end was added by an interactive run of
    that very path, made when the registry held a validated record for it
    and answered yes at the prompt; and a capture-mode run leaves the set
    unchanged. *)
Theorem acknowledgement_set_invariant env ops w :
  _validated_acknowledged w ⊆ _validated_acknowledged (run_ops env ops w)
  /\ (forall p,
        p ∈ _validated_acknowledged (run_ops env ops w) ->
        p ∈ _validated_acknowledged w
        \/ exists ops1 ops2,
             ops = ops1 ++ Run p false :: ops2
             /\ record_validated env p (run_ops env ops1 w)
             /\ answered_yes env p (run_ops env ops1 w))
  /\ (forall q w0,
        _validated_acknowledged (fst (execute_script env q true w0))
        = _validated_acknowledged w0).
Proof.
  split; [apply acknowledged_grows|]. split; [apply acknowledged_origin|].
  intros q w0. destruct (run_acknowledges env q true w0) as [H|(Hc & _)];
    [exact H|discriminate Hc].
Qed.

Lemma acknowledgement_set_invariant_witness :
  validated_py ∈ _validated_acknowledged (run_ops env session fresh)
  /\ (validated_py ∈ _validated_acknowledged fresh
      \/ exists ops1 ops2,
           session = ops1 ++ Run validated_py false :: ops2
           /\ record_validated env validated_py (run_ops env ops1 fresh)
           /\ answered_yes env validated_py (run_ops env ops1 fresh)).
Proof.
  assert (H : validated_py ∈ _validated_acknowledged (run_ops env session fresh)).
  { apply (bool_decide_unpack _). vm_compute. reflexivity. }
  split; [exact H|].
  exact (proj1 (proj2 (acknowledgement_set_invariant env session fresh)) validated_py H).
Defined.

(** The session above: only the validated script was acknowledged. *)
Example session_acknowledgements :
  _validated_acknowledged (run_ops env session fresh) = {[validated_py]}.
Proof. apply (bool_decide_unpack _). vm_compute. reflexivity. Qed.

End RunnerSpec.


(* ===================================================================== *)
(** ** Properties of discovery *)
(* ===================================================================== *)

Module RegistrySpec.
Import PyStr Host Executor Metadata Manager Observe Views Demo.

Lemma get_script_info_frame env path w :
  let w' := fst (get_script_info env path w) in
  files w' = files w /\ scripts w' = scripts w /\ watched w' = watched w
  /\ sys w' = sys w /\ scripts_dir_exists w' = scripts_dir_exists w
  /\ listdir w' = listdir w.
Proof.
  cbv zeta. unfold get_script_info. destruct (read_file w path); [|easy].
  destruct (py_compile env _ _); easy.
Qed.

(** What discovery makes of a file depends on the files only. *)
Lemma get_script_info_files env path w w' :
  files w = files w' ->
  snd (get_script_info env path w) = snd (get_script_info env path w').
Proof.
  intros H. unfold get_script_info, read_file. rewrite H.
  destruct (files w' !! path) as [[content|cls msg]|]; try reflexivity.
  destruct (py_compile env _ _); reflexivity.
Qed.

Lemma add_file_to_watch_frame path w :
  let w' := add_file_to_watch path w in
  files w' = files w /\ scripts w' = scripts w /\ sys w' = sys w
  /\ events w' = events w /\ watched w ⊆ watched w'.
Proof.
  cbv zeta. unfold add_file_to_watch. destruct (_ && _); simpl; repeat split;
    try reflexivity. apply union_subseteq_r.
Qed.

Lemma load_loop_files env names c w :
  files (fst (load_loop env names c w)) = files w.
Proof.
  revert c w. induction names as [|f names IH]; intros c w; simpl; [reflexivity|].
  destruct (_ && _); [|apply IH].
  pose proof (get_script_info_frame env (join (os_path env) (scripts_dir env) f) w)
    as (Hf & _). cbv zeta in Hf.
  destruct (get_script_info env _ w) as [w1 [info|]]; simpl in Hf; rewrite IH.
  - now destruct (add_file_to_watch_frame
                    (join (os_path env) (scripts_dir env) f)
                    (set_scripts (<[f:=info]> (scripts w1)) w1)) as (-> & _).
  - exact Hf.
Qed.

(** The catalog after the loop, entry by entry. *)
Lemma load_loop_lookup env names c w f :
  scripts (fst (load_loop env names c w)) !! f
  = if bool_decide (f ∈ names) && candidate f
    then match discovered env w f with
         | Some r => Some r
         | None => scripts w !! f
         end
    else scripts w !! f.
Proof.
  revert c w. induction names as [|g names IH]; intros c w; simpl.
  - reflexivity.
  - fold (candidate g). destruct (candidate g) eqn:Hg.
    + pose proof (get_script_info_frame env (join (os_path env) (scripts_dir env) g) w)
        as (Hf & Hs & _). cbv zeta in Hf, Hs.
      assert (Hd : discovered env w g
                   = snd (get_script_info env (join (os_path env) (scripts_dir env) g) w))
        by reflexivity.
      destruct (get_script_info env _ w) as [w1 [info|]] eqn:Hi; simpl in Hf, Hs, Hd;
        rewrite IH.
      * unfold discovered at 1.
        rewrite (get_script_info_files env (script_path_of env f) _ w).
        2:{ destruct (add_file_to_watch_frame
                        (join (os_path env) (scripts_dir env) g)
                        (set_scripts (<[g:=info]> (scripts w1)) w1)) as (-> & _).
            exact Hf. }
        fold (discovered env w f).
        destruct (add_file_to_watch_frame
                    (join (os_path env) (scripts_dir env) g)
                    (set_scripts (<[g:=info]> (scripts w1)) w1)) as (_ & -> & _).
        simpl. rewrite Hs.
        destruct (decide (f = g)) as [->|Hne].
        -- rewrite Hd, Hg, lookup_insert_eq.
           rewrite (bool_decide_eq_true_2 (g ∈ g :: names)) by apply list_elem_of_here.
           simpl. now destruct (bool_decide (g ∈ names)).
        -- rewrite lookup_insert_ne by congruence.
           rewrite (bool_decide_ext (f ∈ g :: names) (f ∈ names)); [reflexivity|].
           rewrite elem_of_cons. intuition congruence.
      * unfold discovered at 1.
        rewrite (get_script_info_files env (script_path_of env f) w1 w Hf).
        fold (discovered env w f). rewrite Hs.
        destruct (decide (f = g)) as [->|Hne].
        -- rewrite Hd, Hg.
           rewrite (bool_decide_eq_true_2 (g ∈ g :: names)) by apply list_elem_of_here.
           simpl. now destruct (bool_decide (g ∈ names)).
        -- rewrite (bool_decide_ext (f ∈ g :: names) (f ∈ names)); [reflexivity|].
           rewrite elem_of_cons. intuition congruence.
    + rewrite IH. destruct (decide (f = g)) as [->|Hne].
      * rewrite Hg, !andb_false_r. reflexivity.
      * rewrite (bool_decide_ext (f ∈ g :: names) (f ∈ names)); [reflexivity|].
        rewrite elem_of_cons. intuition congruence.
Qed.

(** The catalog after a reload, entry by entry. *)
Lemma load_scripts_entry env w f :
  scripts (load_scripts env w) !! f
  = if scripts_dir_exists w && bool_decide (f ∈ listdir w) && candidate f
    then discovered env w f
    else None.
Proof.
  unfold load_scripts. simpl.
  destruct (scripts_dir_exists w); simpl; [|apply lookup_empty].
  pose proof (load_loop_lookup env (listdir w) (Counts 0 0) (set_scripts ∅ w) f) as H.
  destruct (load_loop env _ _ _) as [w1 c]. simpl in *. rewrite H.
  unfold discovered.
  rewrite (get_script_info_files env (script_path_of env f) (set_scripts ∅ w) w)
    by reflexivity.
  rewrite lookup_empty. destruct (_ && _); [|reflexivity].
  now destruct (get_script_info env _ w).2.
Qed.

(** X1. After a reload the catalog holds, under each name, exactly what
    discovery makes of that file: a name is a key if and only if the
    directory exists, lists it, it ends in [.py], does not start with [__],
    and the file can be read and compiles; the record is the parsed one. *)
Theorem load_scripts_lookup env w f :
  scripts (load_scripts env w) !! f
  = if scripts_dir_exists w && bool_decide (f ∈ listdir w) && candidate f
    then discovered env w f
    else None.
Proof.
  unfold load_scripts. simpl.
  destruct (scripts_dir_exists w); simpl; [|apply lookup_empty].
  pose proof (load_loop_lookup env (listdir w) (Counts 0 0) (set_scripts ∅ w) f) as H.
  destruct (load_loop env _ _ _) as [w1 c]. simpl in *. rewrite H.
  unfold discovered.
  rewrite (get_script_info_files env (script_path_of env f) (set_scripts ∅ w) w)
    by reflexivity.
  rewrite lookup_empty. destruct (_ && _); [|reflexivity].
  now destruct (get_script_info env _ w).2.
Qed.

Lemma load_loop_frame env names c w :
  let w' := fst (load_loop env names c w) in
  listdir w' = listdir w /\ scripts_dir_exists w' = scripts_dir_exists w
  /\ sys w' = sys w.
Proof.
  cbv zeta. revert c w. induction names as [|f names IH]; intros c w; simpl; [easy|].
  destruct (_ && _); [|apply IH].
  pose proof (get_script_info_frame env (join (os_path env) (scripts_dir env) f) w)
    as (_ & _ & _ & Hs & Hd & Hl). cbv zeta in Hs, Hd, Hl.
  destruct (get_script_info env _ w) as [w1 [info|]]; simpl in Hs, Hd, Hl.
  - destruct (IH (Counts (S (loaded_count c)) (error_count c))
                (add_file_to_watch (join (os_path env) (scripts_dir env) f)
                   (set_scripts (<[f:=info]> (scripts w1)) w1))) as (-> & -> & ->).
    unfold add_file_to_watch. destruct (_ && _); simpl; auto.
  - destruct (IH (Counts (loaded_count c) (S (error_count c))) w1) as (-> & -> & ->).
    auto.
Qed.

Lemma load_scripts_frame env w :
  let w' := load_scripts env w in
  files w' = files w /\ listdir w' = listdir w
  /\ scripts_dir_exists w' = scripts_dir_exists w /\ sys w' = sys w.
Proof.
  cbv zeta. unfold load_scripts. simpl. destruct (scripts_dir_exists w) eqn:Hd; simpl.
  - pose proof (load_loop_files env (listdir w) (Counts 0 0) (set_scripts ∅ w)) as Hf.
    pose proof (load_loop_frame env (listdir w) (Counts 0 0) (set_scripts ∅ w))
      as (Hl & He & Hs). cbv zeta in Hl, He, Hs.
    destruct (load_loop env _ _ _) as [w1 c]. simpl in *. now rewrite Hd in He.
  - now rewrite Hd.
Qed.

Lemma discovered_files env w w' f :
  files w = files w' -> discovered env w f = discovered env w' f.
Proof. intros H. now apply get_script_info_files. Qed.

(** X2. A reload rebuilds the catalog from the directory alone: the
    catalog it leaves does not depend on the catalog it finds, and a second
    reload with no change on disk gives the same catalog again. *)
Theorem reload_is_wholesale_and_idempotent env w m :
  scripts (load_scripts env (set_scripts m w)) = scripts (load_scripts env w)
  /\ scripts (load_scripts env (load_scripts env w)) = scripts (load_scripts env w).
Proof.
  split; apply map_eq; intros f; rewrite !load_scripts_entry.
  - simpl. now rewrite (discovered_files env (set_scripts m w) w f) by reflexivity.
  - destruct (load_scripts_frame env w) as (Hf & -> & -> & _).
    now rewrite (discovered_files env _ w f Hf).
Qed.

Lemma discovered_none env w f :
  (forall content,
      read_file w (script_path_of env f) = inl content ->
      py_compile env content (script_path_of env f) <> CompileOk) ->
  discovered env w f = None.
Proof.
  intros H. unfold discovered, get_script_info.
  destruct (read_file w (script_path_of env f)) as [content|e]; [|reflexivity].
  specialize (H content eq_refl).
  destruct (py_compile env content _); [congruence|reflexivity|reflexivity].
Qed.

(** X3. A file that cannot be read or does not compile is left out of the
    catalog, and it changes nothing for the others: every other name has the
    entry it would have if the bad file were not listed at all. *)
Theorem bad_file_is_skipped_alone env w bad :
  (forall content,
      read_file w (script_path_of env bad) = inl content ->
      py_compile env content (script_path_of env bad) <> CompileOk) ->
  scripts (load_scripts env w) !! bad = None
  /\ forall f, f <> bad ->
       scripts (load_scripts env w) !! f
       = scripts (load_scripts env
                    (set_files (files w) (scripts_dir_exists w)
                               (filter (fun g => g <> bad) (listdir w)) w)) !! f.
Proof.
  intros H. pose proof (discovered_none env w bad H) as Hd. split.
  - rewrite load_scripts_entry, Hd. now destruct (_ && _).
  - intros f Hne. rewrite !load_scripts_entry. simpl.
    rewrite (discovered_files env (set_files _ _ _ w) w f) by reflexivity.
    rewrite (bool_decide_ext (f ∈ filter (fun g => g <> bad) (listdir w))
                             (f ∈ listdir w)).
    + reflexivity.
    + rewrite list_elem_of_filter. intuition.
Qed.

Lemma bad_file_is_skipped_alone_witness :
  let w := set_files (<[script_path_of env "broken.py" := Unreadable "PermissionError"
                          "[Errno 13] Permission denied"]> disk)
             true ("broken.py" :: listdir fresh) fresh in
  scripts (load_scripts env w) !! "broken.py" = None
  /\ forall f, f <> "broken.py" ->
       scripts (load_scripts env w) !! f
       = scripts (load_scripts env
                    (set_files (files w) (scripts_dir_exists w)
                               (filter (fun g => g <> "broken.py") (listdir w)) w)) !! f.
Proof.
  apply (bad_file_is_skipped_alone env
           (set_files (<[script_path_of env "broken.py" := Unreadable "PermissionError"
                           "[Errno 13] Permission denied"]> disk)
              true ("broken.py" :: listdir fresh) fresh) "broken.py").
  intros content Hr. vm_compute in Hr. discriminate.
Defined.

Lemma discovered_some env w f r :
  discovered env w f = Some r ->
  exists content,
    files w !! script_path_of env f = Some (Readable content)
    /\ py_compile env content (script_path_of env f) = CompileOk
    /\ r = script_info_of env (script_path_of env f) content.
Proof.
  unfold discovered, get_script_info, read_file.
  destruct (files w !! script_path_of env f) as [[content|cls msg]|] eqn:E;
    try discriminate.
  destruct (py_compile env content _) eqn:Hc; try discriminate.
  intros [= <-]. now exists content.
Qed.

Lemma load_loop_watched env names c w :
  watched w ⊆ watched (fst (load_loop env names c w))
  /\ forall f, f ∈ names -> loads env w f = true ->
       script_path_of env f ∈ watched (fst (load_loop env names c w)).
Proof.
  revert c w. induction names as [|g names IH]; intros c w; simpl.
  - split; [reflexivity|]. intros f Hf. now apply elem_of_nil in Hf.
  - fold (candidate g). destruct (candidate g) eqn:Hg.
    + pose proof (get_script_info_frame env (join (os_path env) (scripts_dir env) g) w)
        as (Hf & _ & Hw & _). cbv zeta in Hf, Hw.
      assert (Hd : discovered env w g
                   = snd (get_script_info env (join (os_path env) (scripts_dir env) g) w))
        by reflexivity.
      destruct (get_script_info env _ w) as [w1 [info|]] eqn:Hi; simpl in Hf, Hw, Hd.
      * set (w2 := set_scripts (<[g:=info]> (scripts w1)) w1).
        set (w3 := add_file_to_watch (join (os_path env) (scripts_dir env) g) w2).
        destruct (IH (Counts (S (loaded_count c)) (error_count c)) w3) as (Hsub & Hin).
        destruct (add_file_to_watch_frame (join (os_path env) (scripts_dir env) g) w2)
          as (Hf3 & _ & _ & _ & Hw3). fold w3 in Hf3, Hw3.
        assert (Hg3 : script_path_of env g ∈ watched w3).
        { apply discovered_some in Hd as (content & Hc & _).
          unfold w3, add_file_to_watch, path_exists. fold (script_path_of env g).
          simpl. rewrite Hf, Hc.
          rewrite (bool_decide_eq_true_2 (is_Some (Some (Readable content)))) by eauto.
          simpl. destruct (bool_decide _) eqn:Hb; simpl.
          - apply elem_of_union_l, elem_of_singleton. reflexivity.
          - apply bool_decide_eq_false in Hb. now apply dec_stable in Hb. }
        split.
        -- etransitivity; [|exact Hsub]. etransitivity; [|exact Hw3].
           unfold w2. simpl. now rewrite Hw.
        -- intros f Hfin Hl. apply elem_of_cons in Hfin as [->|Hfin].
           ++ now apply Hsub.
           ++ apply Hin; [exact Hfin|]. unfold loads in *.
              rewrite (discovered_files env w3 w f); [exact Hl|].
              rewrite Hf3. unfold w2. simpl. exact Hf.
      * destruct (IH (Counts (loaded_count c) (S (error_count c))) w1) as (Hsub & Hin).
        split.
        -- now rewrite <- Hw.
        -- intros f Hfin Hl. apply elem_of_cons in Hfin as [->|Hfin].
           ++ unfold loads in Hl. rewrite Hd in Hl. now rewrite andb_false_r in Hl.
           ++ apply Hin; [exact Hfin|]. unfold loads in *.
              now rewrite (discovered_files env w1 w f Hf).
    + destruct (IH c w) as (Hsub & Hin). split; [exact Hsub|].
      intros f Hfin Hl. apply elem_of_cons in Hfin as [->|Hfin].
      * unfold loads in Hl. now rewrite Hg in Hl.
      * now apply Hin.
Qed.

(** X4. Every record of the catalog after a reload stands for a file that
    exists and compiles: its path is the scripts directory joined with its
    key, the record is the one parsed from the file's text, and the path is
    watched for changes. *)
Theorem catalog_records_are_watched_files env w f r :
  scripts (load_scripts env w) !! f = Some r ->
  path r = script_path_of env f
  /\ (exists content,
        files w !! path r = Some (Readable content)
        /\ py_compile env content (path r) = CompileOk
        /\ r = script_info_of env (path r) content)
  /\ path r ∈ watched (load_scripts env w).
Proof.
  rewrite load_scripts_entry.
  destruct (scripts_dir_exists w) eqn:Hx; [|discriminate].
  destruct (bool_decide (f ∈ listdir w)) eqn:Hin; [|discriminate].
  destruct (candidate f) eqn:Hc; [|discriminate]. simpl. intros Hd.
  apply bool_decide_eq_true in Hin.
  pose proof (discovered_some env w f r Hd) as (content & Hfile & Hcomp & ->).
  simpl. split; [reflexivity|]. split; [now exists content|].
  unfold load_scripts. simpl. rewrite Hx. simpl.
  destruct (load_loop_watched env (listdir w) (Counts 0 0) (set_scripts ∅ w))
    as (_ & Hw).
  specialize (Hw f Hin).
  destruct (load_loop env _ _ _) as [w1 c]. simpl in *. apply Hw.
  unfold loads. rewrite Hc.
  rewrite (discovered_files env (set_scripts ∅ w) w f) by reflexivity.
  now rewrite Hd.
Qed.

Lemma catalog_records_are_watched_files_witness :
  exists r,
    scripts loaded !! "validated.py" = Some r
    /\ path r = script_path_of env "validated.py"
    /\ (exists content,
          files fresh !! path r = Some (Readable content)
          /\ py_compile env content (path r) = CompileOk
          /\ r = script_info_of env (path r) content)
    /\ path r ∈ watched loaded.
Proof.
  assert (H : scripts (load_scripts env fresh) !! "validated.py"
              = Some (script_info_of env validated_py script_validated))
    by (vm_compute; reflexivity).
  eexists. split; [exact H|].
  exact (catalog_records_are_watched_files env fresh "validated.py" _ H).
Defined.

Lemma loads_files env w w' f : files w = files w' -> loads env w f = loads env w' f.
Proof. intros H. unfold loads. now rewrite (discovered_files env w w' f H). Qed.

Lemma fails_files env w w' f : files w = files w' -> fails env w f = fails env w' f.
Proof. intros H. unfold fails. now rewrite (discovered_files env w w' f H). Qed.

Lemma count_files (q : Env -> World -> string -> bool) env w w' names :
  (forall f, q env w' f = q env w f) ->
  length (filter (fun f => q env w' f = true) names)
  = length (filter (fun f => q env w f = true) names).
Proof.
  intros H. f_equal. apply list_filter_iff. intros f. now rewrite H.
Qed.

Lemma count_cons (q : string -> bool) g names :
  length (filter (fun f => q f = true) (g :: names))
  = (if q g then 1 else 0) + length (filter (fun f => q f = true) names).
Proof.
  rewrite filter_cons. destruct (decide (q g = true)) as [H|H].
  - now rewrite H.
  - destruct (q g); [congruence|reflexivity].
Qed.

(** The counters and the trace of the loop: one warning per rejected file. *)
Lemma load_loop_log env names c w :
  let r := load_loop env names c w in
  loaded_count (snd r)
    = loaded_count c + length (filter (fun f => loads env w f = true) names)
  /\ error_count (snd r)
    = error_count c + length (filter (fun f => fails env w f = true) names)
  /\ exists warnings,
       events (fst r) = events w ++ warnings
       /\ length warnings = length (filter (fun f => fails env w f = true) names)
       /\ forallb is_warning_log warnings = true.
Proof.
  cbv zeta. revert c w. induction names as [|g names IH]; intros c w; simpl.
  - repeat split; try lia. exists []. now rewrite app_nil_r.
  - fold (candidate g).
    rewrite (count_cons (loads env w)), (count_cons (fails env w)).
    assert (Hlg : loads env w g
                  = candidate g && match discovered env w g with
                                   | Some _ => true | None => false end)
      by reflexivity.
    assert (Hfg : fails env w g
                  = candidate g && match discovered env w g with
                                   | Some _ => false | None => true end)
      by reflexivity.
    rewrite Hlg, Hfg. clear Hlg Hfg.
    destruct (candidate g) eqn:Hg; simpl.
    + pose proof (get_script_info_frame env (join (os_path env) (scripts_dir env) g) w)
        as (Hf & _). cbv zeta in Hf.
      assert (Hd : discovered env w g
                   = snd (get_script_info env (join (os_path env) (scripts_dir env) g) w))
        by reflexivity.
      assert (He : events (fst (get_script_info env
                                  (join (os_path env) (scripts_dir env) g) w))
                   = events w
                     ++ match discovered env w g with
                        | Some _ => []
                        | None =>
                            drop (length (events w))
                              (events (fst (get_script_info env
                                 (join (os_path env) (scripts_dir env) g) w)))
                        end
                   /\ (discovered env w g = None ->
                       exists e, events (fst (get_script_info env
                                    (join (os_path env) (scripts_dir env) g) w))
                                 = events w ++ [e] /\ is_warning_log e = true)).
      { unfold discovered, get_script_info, script_path_of.
        destruct (read_file w _) as [content|e]; simpl.
        - destruct (py_compile env content _); simpl.
          + rewrite app_nil_r. split; [reflexivity|discriminate].
          + rewrite drop_app_length. split; [reflexivity|]. eauto.
          + rewrite drop_app_length. split; [reflexivity|]. eauto.
        - rewrite drop_app_length. split; [reflexivity|]. eauto. }
      destruct He as (_ & He).
      destruct (get_script_info env _ w) as [w1 [info|]] eqn:Hi; simpl in Hf, Hd, He.
      * rewrite Hd. simpl.
        set (w3 := add_file_to_watch _ _).
        assert (Hf3 : files w3 = files w).
        { unfold w3. destruct (add_file_to_watch_frame
                                 (join (os_path env) (scripts_dir env) g)
                                 (set_scripts (<[g:=info]> (scripts w1)) w1)) as (-> & _).
          exact Hf. }
        assert (He3 : events w3 = events w).
        { unfold w3. destruct (add_file_to_watch_frame
                                 (join (os_path env) (scripts_dir env) g)
                                 (set_scripts (<[g:=info]> (scripts w1)) w1))
            as (_ & _ & _ & -> & _). simpl.
          unfold get_script_info in Hi.
          destruct (read_file w _); [|discriminate].
          destruct (py_compile env _ _); now inversion Hi. }
        destruct (IH (Counts (S (loaded_count c)) (error_count c)) w3)
          as (Hl & Hr & ws & Hev & Hlen & Hall).
        rewrite (count_files loads env w w3 names) in Hl
          by (intros f; now apply loads_files).
        rewrite (count_files fails env w w3 names) in Hr, Hlen
          by (intros f; now apply fails_files).
        simpl in Hl, Hr. repeat split; try lia.
        exists ws. rewrite Hev, He3. auto.
      * rewrite Hd. simpl. destruct (He Hd) as (e & Hev1 & Hwe).
        destruct (IH (Counts (loaded_count c) (S (error_count c))) w1)
          as (Hl & Hr & ws & Hev & Hlen & Hall).
        rewrite (count_files loads env w w1 names) in Hl
          by (intros f; now apply loads_files).
        rewrite (count_files fails env w w1 names) in Hr, Hlen
          by (intros f; now apply fails_files).
        simpl in Hl, Hr. repeat split; try lia.
        exists (e :: ws). rewrite Hev, Hev1, <- app_assoc. simpl.
        rewrite Hwe, Hall. repeat split; auto.
    + destruct (IH c w) as (Hl & Hr & ws & Hev & Hlen & Hall).
      repeat split; auto. exists ws. auto.
Qed.

(** X5. When the scripts directory exists, a reload logs one warning for
    each candidate file it rejects and ends with the summary line, whose two
    numbers are the candidates accepted and the candidates rejected; every
    candidate of the listing is counted in one of the two. *)
Theorem reload_logs_its_counts env w :
  scripts_dir_exists w = true ->
  let loaded := length (filter (fun f => loads env w f = true) (listdir w)) in
  let failed := length (filter (fun f => fails env w f = true) (listdir w)) in
  (exists warnings,
     events (load_scripts env w) = events w ++ warnings ++ [summary loaded failed]
     /\ length warnings = failed
     /\ forallb is_warning_log warnings = true)
  /\ loaded + failed = length (filter (fun f => candidate f = true) (listdir w)).
Proof.
  intros Hx. cbv zeta. split.
  - unfold load_scripts. simpl. rewrite Hx. simpl.
    pose proof (load_loop_log env (listdir w) (Counts 0 0) (set_scripts ∅ w))
      as (Hl & Hr & ws & Hev & Hlen & Hall). cbv zeta in Hl, Hr, Hev.
    rewrite (count_files loads env w (set_scripts ∅ w) (listdir w)) in Hl
      by (intros f; now apply loads_files).
    rewrite (count_files fails env w (set_scripts ∅ w) (listdir w)) in Hr, Hlen
      by (intros f; now apply fails_files).
    destruct (load_loop env _ _ _) as [w1 c]. simpl in *.
    exists ws. rewrite Hl, Hr, Hev, <- app_assoc. auto.
  - induction (listdir w) as [|g names IH]; [reflexivity|].
    rewrite (count_cons (loads env w)), (count_cons (fails env w)),
      (count_cons candidate).
    assert (Hlg : loads env w g
                  = candidate g && match discovered env w g with
                                   | Some _ => true | None => false end)
      by reflexivity.
    assert (Hfg : fails env w g
                  = candidate g && match discovered env w g with
                                   | Some _ => false | None => true end)
      by reflexivity.
    rewrite Hlg, Hfg. destruct (candidate g); simpl; [|exact IH].
    destruct (discovered env w g); simpl; lia.
Qed.

Lemma reload_logs_its_counts_witness :
  (exists warnings,
     events (load_scripts env fresh)
     = events fresh ++ warnings
       ++ [summary (length (filter (fun f => loads env fresh f = true) (listdir fresh)))
                   (length (filter (fun f => fails env fresh f = true) (listdir fresh)))]
     /\ length warnings
        = length (filter (fun f => fails env fresh f = true) (listdir fresh))
     /\ forallb is_warning_log warnings = true)
  /\ length (filter (fun f => loads env fresh f = true) (listdir fresh))
     + length (filter (fun f => fails env fresh f = true) (listdir fresh))
     = length (filter (fun f => candidate f = true) (listdir fresh)).
Proof. apply (reload_logs_its_counts env fresh). reflexivity. Defined.

End RegistrySpec.


(* ===================================================================== *)
(** ** More on output capture and on the Script Runner *)
(* ===================================================================== *)

Module RunnerExtra.
Import PyStr Host Executor Metadata Manager Observe Views Demo.

(** X6. Output capture round trip. Whatever [sys.stdout] and [sys.stderr]
    are bound to, text printed and text written to [sys.stderr] inside
    [capture_output] is appended to the two buffers and reaches neither
    console; afterwards the two names are bound as before;
    [get_captured_output] returns the buffers' text and a second call
    returns two empty strings. *)
Theorem capture_round_trip (s : SysState) (text etext : string) :
  let body := fun s0 => (write (sys_stderr s0) etext (py_print text s0), tt) in
  let s1 := fst (capture_output body s) in
  let s2 := fst (get_captured_output s1) in
  snd (get_captured_output s1)
    = (output_buffer s +:+ text +:+ nl, error_buffer s +:+ etext)
  /\ console_out s1 = console_out s /\ console_err s1 = console_err s
  /\ sys_stdout s1 = sys_stdout s /\ sys_stderr s1 = sys_stderr s
  /\ snd (get_captured_output s2) = (EmptyString, EmptyString)
  /\ sys_path s2 = sys_path s.
Proof. cbv zeta. unfold capture_output, get_captured_output. simpl. auto 10. Qed.

(** In capture mode the confirmation block does nothing. *)
Lemma confirm_capture env p ws w : confirm env p true ws w = (w, true).
Proof. unfold confirm. now destruct ws. Qed.

Lemma new_events_nil w : new_events w w = [].
Proof. unfold new_events. apply drop_all. Qed.

Ltac new_events_of_goal :=
  unfold new_events; simpl; rewrite <- ?app_assoc;
  rewrite ?drop_app_length, ?drop_all; simpl.

(** X7. A captured run shows nothing to the user: it puts no message in
    the status bar and opens no dialog, whatever the script does. *)
Theorem captured_run_is_silent env p w :
  forallb (fun ev => negb (is_visible ev))
          (new_events w (fst (execute_script env p true w))) = true.
Proof.
  unfold execute_script. destruct (read_file w p) as [content|e].
  - rewrite confirm_capture.
    unfold try_body, capture_output, get_captured_output, do_exec, except_block.
    destruct (bool_decide _); simpl;
      destruct (py_exec env content _ _) as [s' [e|]]; simpl;
      repeat match goal with
             | |- context [if nonempty ?x then _ else _] => destruct (nonempty x)
             | |- context [if is_Exception ?x then _ else _] => destruct (is_Exception x)
             | |- context [py_str ?x] => destruct (py_str x)
             end;
      new_events_of_goal; reflexivity.
  - unfold except_block. destruct (py_str e); new_events_of_goal; reflexivity.
Qed.

(** X8. A captured run of a readable script that returns at all returns
    the 4-tuple, and its warning list is the scan of the text now in the
    file, whether the body succeeded or failed. *)
Theorem captured_run_returns_fresh_warnings env p w content r :
  read_file w p = inl content ->
  snd (execute_script env p true w) = Returned r ->
  exists ok out err,
    r = RetTuple ok out err (Scanner.validate_script_imports content).
Proof.
  intros Hr. unfold execute_script. rewrite Hr, confirm_capture.
  unfold try_body, capture_output, get_captured_output, do_exec, except_block.
  destruct (bool_decide _); simpl;
    destruct (py_exec env content _ _) as [s' [e|]]; simpl;
    repeat match goal with
           | |- context [if nonempty ?x then _ else _] => destruct (nonempty x)
           | |- context [if is_Exception ?x then _ else _] => destruct (is_Exception x)
           | |- context [py_str ?x] => destruct (py_str x)
           end;
    simpl; intros [= <-]; eauto.
Qed.

Lemma captured_run_returns_fresh_warnings_witness :
  exists ok out err,
    RetTuple true ("hi" +:+ nl) EmptyString []
    = RetTuple ok out err (Scanner.validate_script_imports script_hello).
Proof.
  apply (captured_run_returns_fresh_warnings env hello_py loaded script_hello);
    vm_compute; reflexivity.
Defined.



(** X10. A captured run leaves [sys.stdout] and [sys.stderr] bound to the
    streams they were bound to before it, whatever the body does to them and
    whichever way the run ends. *)
Theorem captured_run_restores_streams env p w :
  sys_stdout (sys (fst (execute_script env p true w))) = sys_stdout (sys w)
  /\ sys_stderr (sys (fst (execute_script env p true w))) = sys_stderr (sys w).
Proof.
  unfold execute_script. destruct (read_file w p) as [content|e].
  - rewrite confirm_capture.
    unfold try_body, capture_output, get_captured_output, do_exec, except_block.
    destruct (bool_decide _); simpl;
      destruct (py_exec env content _ _) as [s' [e|]]; simpl;
      repeat match goal with
             | |- context [if nonempty ?x then _ else _] => destruct (nonempty x)
             | |- context [if is_Exception ?x then _ else _] => destruct (is_Exception x)
             | |- context [py_str ?x] => destruct (py_str x)
             end;
      simpl; split; reflexivity.
  - unfold except_block. destruct (py_str e); simpl; split; reflexivity.
Qed.

(** Splits a run into the ways it can go. *)
Ltac run_cases :=
  unfold try_body, capture_output, get_captured_output, do_exec, except_block,
    final_return;
  repeat (simpl;
          match goal with
          | |- context [if needs_prompt ?e ?p ?w then _ else _] =>
              destruct (needs_prompt e p w) eqn:?
          | |- context [match question_reply ?e ?t ?x ?h with _ => _ end] =>
              destruct (question_reply e t x h) eqn:?
          | |- context [if is_validated_of ?e ?p ?w then _ else _] =>
              destruct (is_validated_of e p w) eqn:?
          | |- context [if bool_decide ?P then _ else _] =>
              destruct (bool_decide P) eqn:?
          | |- context [py_exec ?e ?c ?n ?s] =>
              let s' := fresh "s'" in
              let x := fresh "x" in
              destruct (py_exec e c n s) as [s' [x|]] eqn:?
          | |- context [if nonempty ?x then _ else _] => destruct (nonempty x) eqn:?
          | |- context [if is_Exception ?x then _ else _] =>
              destruct (is_Exception x) eqn:?
          | |- context [match py_str ?x with _ => _ end] =>
              destruct (py_str x) eqn:?
          end);
  simpl.

(** X11. When the user answers no at the prompt, the run stops there: it
    returns [False], the only thing it has done is to ask, the body is not
    executed, and [sys], the registry and the acknowledgement set are as
    before. *)
Theorem refusal_aborts env p w content :
  read_file w p = inl content ->
  Scanner.validate_script_imports content <> [] ->
  ~ (record_validated env p w /\ p ∈ _validated_acknowledged w) ->
  question_reply env (question_title env)
    (question_text env (Scanner.validate_script_imports content)) (events w) = No ->
  execute_script env p false w
  = (emit (EvQuestion (question_title env)
             (question_text env (Scanner.validate_script_imports content)) No) w,
     Returned (RetBool false)).
Proof.
  intros Hr Hw Hn Ha. unfold execute_script. rewrite Hr. unfold confirm. simpl.
  destruct (Scanner.validate_script_imports content) as [|x ws]; [contradiction|].
  destruct (needs_prompt env p w) eqn:Hp.
  - now rewrite Ha.
  - apply RunnerSpec.needs_prompt_false in Hp. contradiction.
Qed.

Lemma refusal_aborts_witness :
  execute_script env_no risky_py false loaded
  = (emit (EvQuestion (question_title env_no)
             (question_text env_no (Scanner.validate_script_imports script_risky)) No)
          loaded,
     Returned (RetBool false)).
Proof.
  apply (refusal_aborts env_no risky_py loaded script_risky).
  - vm_compute. reflexivity.
  - vm_compute. discriminate.
  - intros [(r & Hl & Hv) _]. vm_compute in Hl. injection Hl as <-. discriminate.
  - reflexivity.
Defined.

(** X12. Whenever a captured run returns failure, its output text is
    empty, its diagnostic is not, and that diagnostic is what the run logged
    last, at level Critical. *)
Theorem captured_failure_is_logged env p w out diag ws :
  snd (execute_script env p true w) = Returned (RetTuple false out diag ws) ->
  out = EmptyString
  /\ diag <> EmptyString
  /\ last (events (fst (execute_script env p true w))) = Some (EvLog diag tag Critical).
Proof.
  unfold execute_script. destruct (read_file w p) as [content|e].
  - rewrite confirm_capture. run_cases; intros [= <- <- <-];
      (split; [reflexivity|]); (split; [apply RunnerSpec.detailed_error_nonempty|]);
      apply last_snoc.
  - run_cases; intros [= <- <- <-];
      (split; [reflexivity|]); (split; [apply RunnerSpec.detailed_error_nonempty|]);
      apply last_snoc.
Qed.

Lemma captured_failure_is_logged_witness :
  EmptyString = EmptyString
  /\ detailed_error env raise_py (PyExc (ExceptionClass "ValueError") "boom")
     <> EmptyString
  /\ last (events (fst (execute_script env raise_py true loaded)))
     = Some (EvLog (detailed_error env raise_py (PyExc (ExceptionClass "ValueError") "boom"))
                   tag Critical).
Proof.
  apply (captured_failure_is_logged env raise_py loaded EmptyString
           (detailed_error env raise_py (PyExc (ExceptionClass "ValueError") "boom")) []).
  vm_compute. reflexivity.
Defined.

(** X13. A run executes at most one text, and it is the text that is in
    the file when the run starts; a run that ends well has executed it. *)
Theorem run_executes_current_text env p c w :
  let r := execute_script env p c w in
  let texts := exec_contents (new_events w (fst r)) in
  (texts = [] \/ exists content, read_file w p = inl content /\ texts = [content])
  /\ (ended_well (snd r) -> texts <> []).
Proof.
  cbv zeta. unfold execute_script, ended_well.
  destruct (read_file w p) as [content|e].
  - unfold confirm.
    destruct (Scanner.validate_script_imports content) as [|x ws]; destruct c;
      run_cases; new_events_of_goal;
      (split; [first [left; reflexivity | right; exists content; split; reflexivity]
              | first [discriminate
                      | intros [H|(out & err & ws' & H)]; discriminate H]]).
  - destruct c; run_cases; new_events_of_goal;
      (split; [left; reflexivity
              | intros [H|(out & err & ws' & H)]; discriminate H]).
Qed.

(** X14. An interactive run that returns gives a bool. When it gives
    [True] it has shown one status message and no error dialog; when it
    gives [False] it has either shown one error dialog with one status
    message, or done nothing but ask and be told no. *)
Theorem interactive_run_feedback env p w :
  let r := execute_script env p false w in
  let evs := new_events w (fst r) in
  (forall v, snd r = Returned v -> exists b, v = RetBool b)
  /\ (snd r = Returned (RetBool true) -> statuses evs = 1 /\ criticals evs = 0)
  /\ (snd r = Returned (RetBool false) ->
      (statuses evs = 1 /\ criticals evs = 1)
      \/ exists title text, evs = [EvQuestion title text No]).
Proof.
  cbv zeta. unfold execute_script.
  destruct (read_file w p) as [content|e].
  - unfold confirm.
    destruct (Scanner.validate_script_imports content) as [|x ws];
      run_cases; new_events_of_goal;
      (split; [intros v [= <-]; eauto|]);
      (split; [first [discriminate | intros _; split; reflexivity]|]);
      first [discriminate
            | intros _; left; split; reflexivity
            | intros _; right; eauto].
  - run_cases; new_events_of_goal;
      (split; [intros v [= <-]; eauto|]); (split; [discriminate|]);
      first [discriminate | intros _; left; split; reflexivity].
Qed.

End RunnerExtra.


(* ===================================================================== *)
(** ** More on the Metadata Parser *)
(* ===================================================================== *)

Module MetadataExtra.
Import PyStr Re Host Metadata Manager Views Demo.

Lemma ascii_eqb_sym (a b : ascii) : ascii_eqb a b = ascii_eqb b a.
Proof. apply Ascii.eqb_sym. Qed.

(** Only a quote matches a quote, also when case is ignored. *)
Lemma lit_eq_DQ (t : ascii) : lit_eq true DQ t = ascii_eqb DQ t.
Proof. destruct t as [[] [] [] [] [] [] [] []]; reflexivity. Qed.

Lemma lit_eq_SQ (t : ascii) : lit_eq true SQ t = ascii_eqb SQ t.
Proof. destruct t as [[] [] [] [] [] [] [] []]; reflexivity. Qed.

Lemma run_triple_DQ_none R cur cap (k : cursor -> option string -> option R) :
  startswith (rest cur) (String DQ (String DQ (String DQ EmptyString))) = false ->
  run true R (triple DQ) cur cap k = None.
Proof.
  destruct cur as [b s n]. unfold triple, seqs. cbn [run].
  unfold one, advance. cbn [rest pos].
  destruct s as [|a1 s]; [reflexivity|]. cbn [startswith]. rewrite lit_eq_DQ.
  destruct (ascii_eqb DQ a1); [|reflexivity]. cbn [rest pos andb].
  destruct s as [|a2 s]; [reflexivity|]. cbn [startswith]. rewrite lit_eq_DQ.
  destruct (ascii_eqb DQ a2); [|reflexivity]. cbn [rest pos andb].
  destruct s as [|a3 s]; [reflexivity|]. cbn [startswith]. rewrite lit_eq_DQ.
  destruct (ascii_eqb DQ a3); [|reflexivity].
  intros H. destruct s; discriminate H.
Qed.

Lemma run_triple_SQ_none R cur cap (k : cursor -> option string -> option R) :
  startswith (rest cur) (String SQ (String SQ (String SQ EmptyString))) = false ->
  run true R (triple SQ) cur cap k = None.
Proof.
  destruct cur as [b s n]. unfold triple, seqs. cbn [run].
  unfold one, advance. cbn [rest pos].
  destruct s as [|a1 s]; [reflexivity|]. cbn [startswith]. rewrite lit_eq_SQ.
  destruct (ascii_eqb SQ a1); [|reflexivity]. cbn [rest pos andb].
  destruct s as [|a2 s]; [reflexivity|]. cbn [startswith]. rewrite lit_eq_SQ.
  destruct (ascii_eqb SQ a2); [|reflexivity]. cbn [rest pos andb].
  destruct s as [|a3 s]; [reflexivity|]. cbn [startswith]. rewrite lit_eq_SQ.
  destruct (ascii_eqb SQ a3); [|reflexivity].
  intros H. destruct s; discriminate H.
Qed.

Lemma field_pattern_needs_triple field cur :
  startswith (rest cur) (String DQ (String DQ (String DQ EmptyString))) = false ->
  startswith (rest cur) (String SQ (String SQ (String SQ EmptyString))) = false ->
  match_at true (field_pattern field) cur = None.
Proof.
  intros Hd Hs. unfold match_at, field_pattern.
  change (seqs (Alt (triple DQ) (triple SQ) :: ?l))
    with (Seq (Alt (triple DQ) (triple SQ)) (seqs l)).
  cbn [run]. unfold orelse.
  rewrite (run_triple_DQ_none _ cur None _ Hd).
  now rewrite (run_triple_SQ_none _ cur None _ Hs).
Qed.

Lemma search_from_no_triple field b s n fuel :
  has_triple_quote s = false ->
  search_from true (field_pattern field) (Cursor b s n) fuel = None.
Proof.
  revert b s n. induction fuel as [|fuel IH]; intros b s n H.
  - simpl. destruct s as [|a r].
    + now rewrite field_pattern_needs_triple.
    + simpl in H. apply orb_false_iff in H as [H _]. apply orb_false_iff in H as [Hd Hs].
      rewrite field_pattern_needs_triple; [|exact Hd|exact Hs].
      unfold advance. simpl. reflexivity.
  - simpl. destruct s as [|a r].
    + now rewrite field_pattern_needs_triple.
    + simpl in H. apply orb_false_iff in H as [H Hr]. apply orb_false_iff in H as [Hd Hs].
      rewrite field_pattern_needs_triple; [|exact Hd|exact Hs].
      unfold advance. simpl. now apply IH.
Qed.

Lemma parse_without_triple content field as_bool :
  has_triple_quote content = false ->
  _parse_docstring_field content field as_bool
  = if as_bool then FBool false else FNone.
Proof.
  intros H. unfold _parse_docstring_field, search.
  now rewrite search_from_no_triple.
Qed.

(** X15. A script text without any triple quote has no docstring to the
    parser: the description is the placeholder, the script is not shown in
    the toolbar, it has no toolbar label and it is not validated. *)
Theorem no_docstring_gives_defaults env p content :
  has_triple_quote content = false ->
  let r := script_info_of env p content in
  description r = "PyQGIS Script"
  /\ toolbar r = false /\ toolbar_label r = FNone /\ validated r = false
  /\ path r = p.
Proof.
  intros H. cbv zeta. unfold script_info_of, desc_keys. simpl.
  now rewrite !(parse_without_triple content _ _ H).
Qed.

Lemma no_docstring_gives_defaults_witness :
  let r := script_info_of env risky_py script_risky in
  description r = "PyQGIS Script"
  /\ toolbar r = false /\ toolbar_label r = FNone /\ validated r = false
  /\ path r = risky_py.
Proof. apply (no_docstring_gives_defaults env risky_py script_risky). reflexivity. Defined.

Lemma remove_char_gone c s : contains_char c (remove_char c s) = false.
Proof.
  induction s as [|a r IH]; simpl; [reflexivity|].
  destruct (ascii_eqb a c) eqn:E; simpl; [exact IH|]. now rewrite E.
Qed.

Lemma remove_char_keeps_absent c d s :
  contains_char c s = false -> contains_char c (remove_char d s) = false.
Proof.
  induction s as [|a r IH]; simpl; [reflexivity|]. intros H.
  apply orb_false_iff in H as [Ha Hr].
  destruct (ascii_eqb a d); simpl; [now apply IH|]. rewrite Ha. now apply IH.
Qed.

(** A text value of a field holds no quote character. *)
Lemma parse_text_has_no_quote content field s :
  _parse_docstring_field content field false = FStr s ->
  contains_char DQ s = false /\ contains_char SQ s = false.
Proof.
  unfold _parse_docstring_field. destruct (search true _ content); [|discriminate].
  intros [= <-]. split.
  - apply remove_char_keeps_absent, remove_char_gone.
  - apply remove_char_gone.
Qed.

Lemma first_description_cases content keys d0 :
  first_description content keys d0 = d0
  \/ exists key, first_description content keys d0
                 = _parse_docstring_field content key false.
Proof.
  revert d0. induction keys as [|key keys IH]; intros d0; simpl; [now left|].
  destruct (truthy _); [right; now exists key|].
  destruct (IH (_parse_docstring_field content key false)) as [H|H];
    [right; exists key; exact H | right; exact H].
Qed.

(** X16. Whatever the script text, the description of the record built
    from it is never empty and holds no quote character. *)
Theorem description_is_never_empty_nor_quoted env p content :
  let d := description (script_info_of env p content) in
  d <> EmptyString /\ contains_char DQ d = false /\ contains_char SQ d = false.
Proof.
  cbv zeta. unfold script_info_of. cbn [description].
  destruct (first_description content desc_keys FNone) as [|b|s] eqn:E;
    [split; [discriminate|split; reflexivity]
    |split; [discriminate|split; reflexivity]|].
  destruct (nonempty s) eqn:Hs; [|split; [discriminate|split; reflexivity]].
  split; [now destruct s|].
  destruct (first_description_cases content desc_keys FNone) as [H|(key & H)];
    rewrite E in H; [discriminate|].
  symmetry in H. now apply parse_text_has_no_quote in H.
Qed.

End MetadataExtra.


(* ===================================================================== *)
(** ** Properties of the Translator *)
(* ===================================================================== *)

Module TranslatorSpec.
Import PyStr Translator.

Lemma language_is_short locale : language_of locale <> "pt_BR".
Proof.
  unfold language_of. destruct locale as [|a [|b r]]; simpl; try discriminate.
  destruct r; discriminate.
Qed.

Lemma language_map_other lang :
  lang <> "pt" -> lang <> "es" -> lang <> "fr" -> lang <> "de" -> lang <> "it" ->
  language_map !! lang = None.
Proof.
  intros. unfold language_map.
  rewrite !lookup_insert_ne by congruence. apply lookup_empty.
Qed.

Lemma load_translations_other lang :
  lang <> "pt_BR" -> lang <> "en" -> load_translations !! lang = None.
Proof.
  intros. unfold load_translations.
  rewrite !lookup_insert_ne by congruence. apply lookup_empty.
Qed.

(** The table in force for a locale. *)
Lemma table_in_force locale :
  let t := _translator locale in
  match translations t !! current_language t with
  | Some table => Some table
  | None => translations t !! "en"
  end
  = Some (if String.eqb (language_of locale) "pt"
          then table_of pt_BR_items else table_of en_items).
Proof.
  cbv zeta. unfold _translator, detect_qgis_language. cbn [current_language translations].
  pose proof (language_is_short locale) as Hshort.
  destruct (decide (language_of locale = "pt")) as [->|Hpt]; [reflexivity|].
  destruct (decide (language_of locale = "es")) as [->|Hes]; [reflexivity|].
  destruct (decide (language_of locale = "fr")) as [->|Hfr]; [reflexivity|].
  destruct (decide (language_of locale = "de")) as [->|Hde]; [reflexivity|].
  destruct (decide (language_of locale = "it")) as [->|Hit]; [reflexivity|].
  rewrite (language_map_other _ Hpt Hes Hfr Hde Hit). cbn [default].
  assert (Hne : String.eqb (language_of locale) "pt" = false)
    by (now apply String.eqb_neq).
  rewrite Hne.
  destruct (decide (language_of locale = "en")) as [->|Hen]; [reflexivity|].
  now rewrite (load_translations_other _ Hshort Hen).
Qed.

Lemma tr_by_table locale key fallback :
  tr (_translator locale) key fallback
  = default (default key fallback)
      ((if String.eqb (language_of locale) "pt"
        then table_of pt_BR_items else table_of en_items) !! key).
Proof.
  pose proof (table_in_force locale) as H. cbv zeta in H. unfold tr.
  destruct (translations (_translator locale) !! current_language (_translator locale))
    as [table|].
  - now injection H as ->.
  - now rewrite H.
Qed.

(** X17. For every value of the locale setting, [tr] answers from the
    Portuguese table when the first two characters of the locale, in lower
    case, are [pt], and from the English table in every other case (Spanish,
    French, German and Italian included); a key the table lacks is answered
    with the fallback, or with the key itself when no fallback is given. *)
Theorem tr_uses_portuguese_or_english locale key fallback :
  tr (_translator locale) key fallback
  = default (default key fallback)
      ((if String.eqb (language_of locale) "pt"
        then table_of pt_BR_items else table_of en_items) !! key).
Proof.
  pose proof (table_in_force locale) as H. cbv zeta in H. unfold tr.
  destruct (translations (_translator locale) !! current_language (_translator locale))
    as [table|].
  - now injection H as ->.
  - now rewrite H.
Qed.

Lemma tables_have_the_same_keys :
  dom (table_of en_items) = dom (table_of pt_BR_items).
Proof. apply (bool_decide_unpack _). vm_compute. reflexivity. Qed.

(** X18. The two tables translate the same keys, so for every locale a key
    of the English table is answered with an entry of the table in force,
    never with the fallback. *)
Theorem known_keys_are_always_translated locale key fallback :
  is_Some (table_of en_items !! key) ->
  exists v,
    (if String.eqb (language_of locale) "pt"
     then table_of pt_BR_items else table_of en_items) !! key = Some v
    /\ tr (_translator locale) key fallback = v.
Proof.
  intros Hk. rewrite tr_by_table.
  assert (Hp : is_Some (table_of pt_BR_items !! key)).
  { apply elem_of_dom. rewrite <- tables_have_the_same_keys. now apply elem_of_dom. }
  destruct (String.eqb (language_of locale) "pt").
  - destruct Hp as [v Hv]. exists v. now rewrite Hv.
  - destruct Hk as [v Hv]. exists v. now rewrite Hv.
Qed.

Lemma known_keys_are_always_translated_witness :
  exists v,
    (if String.eqb (language_of "pt_PT") "pt"
     then table_of pt_BR_items else table_of en_items) !! "error_executing" = Some v
    /\ tr (_translator "pt_PT") "error_executing" None = v.
Proof.
  apply (known_keys_are_always_translated "pt_PT" "error_executing" None).
  vm_compute. eauto.
Defined.

Example portuguese_and_german :
  tr (_translator "pt_PT") "error_executing" None = "Erro ao executar script"
  /\ tr (_translator "de_AT") "error_executing" None = "Error executing script"
  /\ tr (_translator "de_AT") "no_such_key" None = "no_such_key".
Proof. vm_compute. repeat split. Qed.

End TranslatorSpec.

(* ===================================================================== *)
(** ** Where the Metadata Parser finds a field *)
(* ===================================================================== *)

Module FieldSearch.
Import PyStr Re Host Metadata Views MetadataExtra Demo.

Lemma append_cons a (s t : string) : String a s +:+ t = String a (s +:+ t).
Proof. reflexivity. Qed.

Lemma append_nil (t : string) : EmptyString +:+ t = t.
Proof. reflexivity. Qed.

Lemma append_assoc (a b c : string) : (a +:+ b) +:+ c = a +:+ (b +:+ c).
Proof.
  induction a as [|x r IH]; [reflexivity|]. rewrite !append_cons. now rewrite IH.
Qed.

Lemma cursor_after_app t b r n :
  cursor_after t (Cursor b (t +:+ r) n)
  = Cursor (before (cursor_after t (Cursor b (t +:+ r) n))) r (n + String.length t).
Proof.
  revert b n. induction t as [|a t IH]; intros b n.
  - rewrite append_nil. cbn [cursor_after before String.length]. f_equal. lia.
  - rewrite append_cons. cbn [cursor_after rest pos String.length].
    rewrite IH at 1. f_equal. lia.
Qed.

Lemma leb_succ n : (S n <=? n)%nat = false.
Proof. apply Nat.leb_gt. lia. Qed.

Lemma run_lits ic R field t b r n cap (k : cursor -> option string -> option R) :
  same_text ic field t = true ->
  run ic R (lits field) (Cursor b (t +:+ r) n) cap k
  = k (cursor_after t (Cursor b (t +:+ r) n)) cap.
Proof.
  revert t b n. induction field as [|c f IH]; intros t b n H.
  - destruct t; [reflexivity|discriminate].
  - destruct t as [|a t]; [discriminate|]. cbn [same_text] in H.
    apply andb_true_iff in H as [Ha Ht].
    change (run ic R (lits (String c f)) (Cursor b (String a t +:+ r) n) cap k)
      with (if lit_eq ic c a
            then run ic R (lits f) (Cursor (Some a) (t +:+ r) (S n)) cap k
            else None).
    rewrite Ha. now rewrite IH.
Qed.


Lemma run_star ic R r cur cap (k : cursor -> option string -> option R) :
  run ic R (Star r) cur cap k = star_loop ic R r k (String.length (rest cur)) cur cap.
Proof. reflexivity. Qed.

Lemma run_lazy ic R r cur cap (k : cursor -> option string -> option R) :
  run ic R (LazyStar r) cur cap k = lazy_loop ic R r k (String.length (rest cur)) cur cap.
Proof. reflexivity. Qed.

Lemma run_plus ic R r cur cap (k : cursor -> option string -> option R) :
  run ic R (Plus r) cur cap k
  = run ic R r cur cap (fun cur1 cap1 =>
      star_loop ic R r k (String.length (rest cur1)) cur1 cap1).
Proof. reflexivity. Qed.

Lemma star_loop_class ic R r test (k : cursor -> option string -> option R) :
  (forall cur cap k', run ic R r cur cap k' = one test cur (fun cur' => k' cur' cap)) ->
  forall ws b rest' n fuel cap x,
    (String.length ws <= fuel)%nat ->
    all_chars test ws = true ->
    starts_off test rest' = true ->
    k (cursor_after ws (Cursor b (ws +:+ rest') n)) cap = Some x ->
    star_loop ic R r k fuel (Cursor b (ws +:+ rest') n) cap = Some x.
Proof.
  intros Hr ws. induction ws as [|a ws IH]; intros b rest' n fuel cap x Hlen Hall Hoff Hk.
  - rewrite append_nil in *. cbn [cursor_after] in Hk.
    destruct fuel as [|fuel]; [exact Hk|].
    cbn [star_loop]. rewrite Hr. unfold one, advance. cbn [rest].
    destruct rest' as [|c t]; [exact Hk|].
    cbn [starts_off] in Hoff. apply negb_true_iff in Hoff. rewrite Hoff. exact Hk.
  - rewrite append_cons in *. cbn [cursor_after rest pos] in Hk.
    cbn [all_chars] in Hall. apply andb_true_iff in Hall as [Ha Hall].
    destruct fuel as [|fuel]; [cbn in Hlen; lia|]. cbn [String.length] in Hlen.
    cbn [star_loop]. rewrite Hr. unfold one, advance. cbn [rest pos].
    rewrite Ha, leb_succ.
    fold (star_loop ic R r k).
    rewrite (IH (Some a) rest' (S n) fuel cap x); [reflexivity|lia|exact Hall|exact Hoff|exact Hk].
Qed.


(** The rest of the field pattern, after [[\s\S]*?]. *)
Lemma field_pattern_shape field :
  field_pattern field
  = Seq (Alt (triple DQ) (triple SQ))
        (Seq (Star Space) (Seq (LazyStar AnyChar) (field_tail field))).
Proof. reflexivity. Qed.

(** Where the name and its colon do not stand, the tail of the pattern fails. *)
Lemma field_tail_fails R field rp b s n cap (k : cursor -> option string -> option R) :
  starts_with true (field +:+ ":") s = false ->
  run true R (Seq (lits field) (Seq (Lit ":"%char) rp)) (Cursor b s n) cap k = None.
Proof.
  revert b s n. induction field as [|c f IH]; intros b s n H.
  - rewrite append_nil in H. cbn [lits]. cbn [run]. unfold one, advance. cbn [rest].
    destruct s as [|a t]; [reflexivity|]. cbn [starts_with] in H.
    rewrite andb_true_r in H. now rewrite H.
  - rewrite append_cons in H. cbn [lits].
    change (run true R (Seq (Seq (Lit c) (lits f)) (Seq (Lit ":"%char) rp))
              (Cursor b s n) cap k)
      with (one (lit_eq true c) (Cursor b s n)
              (fun cur' => run true R (Seq (lits f) (Seq (Lit ":"%char) rp)) cur' cap k)).
    unfold one, advance. cbn [rest pos].
    destruct s as [|a t]; [reflexivity|]. cbn [starts_with] in H.
    destruct (lit_eq true c a); [|reflexivity]. cbn [andb] in H. now apply IH.
Qed.

(** The lazy star walks over a gap that does not hold the field. *)
Lemma lazy_loop_skips R field rp gap follow (k : cursor -> option string -> option R) :
  forall b n fuel cap x,
    (String.length gap <= fuel)%nat ->
    field_free field gap follow = true ->
    run true R (Seq (lits field) (Seq (Lit ":"%char) rp))
        (cursor_after gap (Cursor b (gap +:+ follow) n)) cap k = Some x ->
    lazy_loop true R AnyChar
      (fun cur' cap' => run true R (Seq (lits field) (Seq (Lit ":"%char) rp)) cur' cap' k)
      fuel (Cursor b (gap +:+ follow) n) cap = Some x.
Proof.
  induction gap as [|a g IH]; intros b n fuel cap x Hlen Hfree Hk.
  - rewrite append_nil in *. cbn [cursor_after] in Hk.
    destruct fuel as [|fuel]; cbn [lazy_loop]; [exact Hk|]. now rewrite Hk.
  - rewrite append_cons in *. cbn [cursor_after rest pos] in Hk.
    cbn [field_free] in Hfree. apply andb_true_iff in Hfree as [Hhere Hfree].
    apply negb_true_iff in Hhere.
    destruct fuel as [|fuel]; [cbn in Hlen; lia|]. cbn [String.length] in Hlen.
    cbn [lazy_loop].
    rewrite (field_tail_fails R field rp b _ n cap k Hhere). cbn [orelse].
    change (run true R AnyChar (Cursor b (String a (g +:+ follow)) n) cap ?k')
      with (k' (Cursor (Some a) (g +:+ follow) (S n)) cap).
    cbn beta. cbn [pos]. rewrite leb_succ.
    apply IH; [lia|exact Hfree|exact Hk].
Qed.

Lemma lit_eq_refl ic c : lit_eq ic c c = true.
Proof. unfold lit_eq, ascii_eqb. destruct ic; apply Ascii.eqb_refl. Qed.

Lemma run_triple ic R c b r n cap (k : cursor -> option string -> option R) :
  run ic R (triple c) (Cursor b (opener c +:+ r) n) cap k
  = k (Cursor (Some c) r (S (S (S n)))) cap.
Proof.
  unfold triple, opener. cbn [seqs]. rewrite !append_cons, append_nil.
  cbn [run]. unfold one, advance. cbn [rest pos]. now rewrite !lit_eq_refl.
Qed.


(** Every text is a run of white space followed by a text that does not
    begin with white space. *)
Lemma split_space (s : string) :
  exists ws s', s = ws +:+ s' /\ all_chars isspace ws = true
               /\ starts_off isspace s' = true.
Proof.
  induction s as [|a s IH].
  - exists EmptyString, EmptyString. auto.
  - destruct (isspace a) eqn:Ha.
    + destruct IH as (ws & s' & -> & Hall & Hoff).
      exists (String a ws), s'. rewrite append_cons. cbn [all_chars]. rewrite Ha. auto.
    + exists EmptyString, (String a s). rewrite append_nil. cbn [starts_off all_chars].
      rewrite Ha. auto.
Qed.

Lemma field_free_suffix field ws g follow :
  field_free field (ws +:+ g) follow = true -> field_free field g follow = true.
Proof.
  induction ws as [|a ws IH]; [now rewrite append_nil|].
  rewrite append_cons. cbn [field_free]. intros H.
  apply andb_true_iff in H as [_ H]. now apply IH.
Qed.

Lemma starts_off_app test (s t : string) :
  starts_off test s = true -> starts_off test t = true ->
  starts_off test (s +:+ t) = true.
Proof. destruct s; [now rewrite append_nil|now rewrite append_cons]. Qed.

Lemma length_app (s t : string) :
  String.length (s +:+ t) = (String.length s + String.length t)%nat.
Proof.
  induction s as [|a s IH]; [reflexivity|]. rewrite append_cons. cbn [String.length].
  now rewrite IH.
Qed.

Lemma substring_prefix (d t : string) :
  String.substring 0 (String.length d) (d +:+ t) = d.
Proof.
  induction d as [|a d IH].
  - rewrite append_nil. destruct t; reflexivity.
  - rewrite append_cons. cbn [String.length String.substring]. now rewrite IH.
Qed.

(** The value part of the pattern, [\s*([^\n]+)], on spaces, a value and
    the end of its line. *)
Lemma run_value R sp d tl b n (k : cursor -> option string -> option R) cap x :
  all_chars isspace sp = true ->
  d <> EmptyString ->
  all_chars not_newline d = true ->
  starts_off isspace d = true ->
  starts_off not_newline tl = true ->
  k (cursor_after d (cursor_after sp (Cursor b (sp +:+ d +:+ tl) n))) (Some d) = Some x ->
  run true R (Seq (Star Space) (Group (Plus NotNewline)))
      (Cursor b (sp +:+ d +:+ tl) n) cap k = Some x.
Proof.
  intros Hsp Hd Hnl Hoff Htl Hk.
  change (run true R (Seq (Star Space) (Group (Plus NotNewline)))
            (Cursor b (sp +:+ d +:+ tl) n) cap k)
    with (run true R (Star Space) (Cursor b (sp +:+ d +:+ tl) n) cap
            (fun cur' cap' => run true R (Group (Plus NotNewline)) cur' cap' k)).
  rewrite run_star.
  apply (star_loop_class true R Space isspace); try assumption.
  - reflexivity.
  - cbn [rest]. rewrite length_app. lia.
  - destruct d as [|a d']; [congruence|]. now rewrite append_cons.
  - rewrite cursor_after_app in *.
    set (b1 := before (cursor_after sp (Cursor b (sp +:+ d +:+ tl) n))) in *.
    set (m := (n + String.length sp)%nat) in *.
    destruct d as [|a d']; [congruence|].
    cbn [all_chars] in Hnl. apply andb_true_iff in Hnl as [Ha Hnl].
    rewrite append_cons in *. cbn [cursor_after rest pos] in Hk.
    change (run true R (Group (Plus NotNewline)) (Cursor b1 (String a (d' +:+ tl)) m) cap k)
      with (if not_newline a
            then star_loop true R NotNewline
                   (fun cur' _ =>
                      k cur' (Some (String.substring 0 (pos cur' - m)
                                      (String a (d' +:+ tl)))))
                   (String.length (d' +:+ tl))
                   (Cursor (Some a) (d' +:+ tl) (S m)) cap
            else None).
    rewrite Ha.
    apply (star_loop_class true R NotNewline not_newline); try assumption.
    + reflexivity.
    + rewrite length_app. lia.
    + rewrite cursor_after_app in *. cbn [pos].
      replace (S m + String.length d' - m)%nat with (String.length (String a d'))
        by (cbn [String.length]; lia).
      rewrite <- append_cons, substring_prefix. exact Hk.
Qed.

(** The pattern matches at a triple quote after which the field stands, at
    the first place where its name and a colon stand. *)
Lemma match_at_field field c gap fld sp d tl b n :
  (c = DQ \/ c = SQ) ->
  same_text true field fld = true ->
  starts_off isspace (fld +:+ ":") = true ->
  field_free field gap (fld +:+ ":" +:+ sp +:+ d +:+ tl) = true ->
  all_chars isspace sp = true ->
  d <> EmptyString ->
  all_chars not_newline d = true ->
  starts_off isspace d = true ->
  starts_off not_newline tl = true ->
  exists e,
    match_at true (field_pattern field)
      (Cursor b (opener c +:+ gap +:+ fld +:+ ":" +:+ sp +:+ d +:+ tl) n)
    = Some (Match n e (Some d)).
Proof.
  intros Hc Hfld Hoff Hfree Hsp Hd Hnl Hdoff Htl.
  set (follow := fld +:+ ":" +:+ sp +:+ d +:+ tl) in *.
  destruct (split_space gap) as (ws & g & -> & Hws & Hg).
  apply field_free_suffix in Hfree.
  rewrite append_assoc.
  unfold match_at. rewrite field_pattern_shape.
  set (K := fun (cur' : cursor) (cap : option string) => Some (Match n (pos cur') cap)).
  cbn [pos].
  assert (Hfollow : starts_off isspace follow = true).
  { unfold follow. destruct fld as [|a f]; [reflexivity|].
    now rewrite append_cons in *. }
  assert (Htail : forall b1 n1 cap,
             exists e, run true rmatch (field_tail field) (Cursor b1 follow n1) cap K
                       = Some (Match n e (Some d))).
  { intros b1 n1 cap. unfold field_tail, follow.
    change (run true rmatch (Seq (lits field) ?r) ?cur cap K)
      with (run true rmatch (lits field) cur cap
              (fun cur' cap' => run true rmatch r cur' cap' K)).
    rewrite (run_lits true rmatch field fld b1 _ n1 cap _ Hfld).
    rewrite cursor_after_app.
    set (b2 := before _). rewrite append_cons, append_nil.
    change (run true rmatch (Seq (Lit ":"%char) ?r) (Cursor b2 (String ":"%char ?s) ?m) cap K)
      with (run true rmatch r (Cursor (Some ":"%char) s (S m)) cap K).
    eexists. apply run_value; try assumption. reflexivity. }
  assert (Hmid : forall b1 n1 cap,
             exists e, run true rmatch (Seq (Star Space) (Seq (LazyStar AnyChar) (field_tail field)))
                         (Cursor b1 (ws +:+ g +:+ follow) n1) cap K
                       = Some (Match n e (Some d))).
  { intros b1 n1 cap.
    change (run true rmatch (Seq (Star Space) ?r) ?cur cap K)
      with (run true rmatch (Star Space) cur cap
              (fun cur' cap' => run true rmatch r cur' cap' K)).
    rewrite run_star.
    destruct (Htail (before (cursor_after g
                (Cursor (before (cursor_after ws (Cursor b1 (ws +:+ g +:+ follow) n1)))
                        (g +:+ follow) (n1 + String.length ws))))
                (n1 + String.length ws + String.length g)%nat cap) as [e He].
    exists e.
    apply (star_loop_class true rmatch Space isspace); try assumption.
    - reflexivity.
    - cbn [rest]. rewrite length_app. lia.
    - apply starts_off_app; [exact Hg|exact Hfollow].
    - rewrite cursor_after_app.
      change (run true rmatch (Seq (LazyStar AnyChar) ?r) ?cur cap K)
        with (run true rmatch (LazyStar AnyChar) cur cap
                (fun cur' cap' => run true rmatch r cur' cap' K)).
      rewrite run_lazy. unfold field_tail.
      apply lazy_loop_skips.
      + cbn [rest]. rewrite length_app. lia.
      + exact Hfree.
      + rewrite cursor_after_app. exact He. }
  destruct (Hmid (Some c) (S (S (S n))) None) as [e He]. exists e.
  fold K.
  change (run true rmatch (Seq (Alt (triple DQ) (triple SQ)) ?r) ?cur None K)
    with (orelse (run true rmatch (triple DQ) cur None
                    (fun cur' cap' => run true rmatch r cur' cap' K))
                 (run true rmatch (triple SQ) cur None
                    (fun cur' cap' => run true rmatch r cur' cap' K))).
  destruct Hc as [-> | ->].
  - rewrite run_triple. now rewrite He.
  - rewrite run_triple_DQ_none by reflexivity. cbn [orelse].
    rewrite run_triple. exact He.
Qed.


(** The search passes over a prefix without quote characters. *)
Lemma search_from_skips field pre rest0 d :
  contains_char DQ pre = false ->
  contains_char SQ pre = false ->
  (forall b n, exists e, match_at true (field_pattern field) (Cursor b rest0 n)
                         = Some (Match n e (Some d))) ->
  forall b n fuel,
    (String.length pre <= fuel)%nat ->
    exists e, search_from true (field_pattern field) (Cursor b (pre +:+ rest0) n) fuel
              = Some (Match (n + String.length pre) e (Some d)).
Proof.
  intros Hd Hs Hm. induction pre as [|a pre IH]; intros b n fuel Hlen.
  - rewrite append_nil. destruct (Hm b n) as [e He]. exists e.
    cbn [String.length]. rewrite Nat.add_0_r.
    destruct fuel; cbn [search_from]; now rewrite He.
  - rewrite append_cons. cbn [contains_char] in Hd, Hs.
    apply orb_false_iff in Hd as [Had Hd]. apply orb_false_iff in Hs as [Has Hs].
    destruct fuel as [|fuel]; [cbn in Hlen; lia|]. cbn [String.length] in Hlen.
    destruct (IH Hd Hs (Some a) (S n) fuel) as [e He]; [lia|]. exists e.
    cbn [search_from].
    rewrite field_pattern_needs_triple.
    + unfold advance. cbn [rest pos]. rewrite He. f_equal. f_equal.
      cbn [String.length]. lia.
    + cbn [rest startswith]. now rewrite ascii_eqb_sym, Had.
    + cbn [rest startswith]. now rewrite ascii_eqb_sym, Has.
Qed.

(** C3, as the code has it. The parser looks for a field from the first
    triple quote of the text onwards, not only inside the first triple-quoted
    string: for a text made of a prefix without quote characters, a triple
    quote, any text [gap], the field name in any case, a colon, white space,
    a value that runs to the end of its line, where the name with a colon
    does not stand earlier in [gap], the parser returns that value (stripped;
    for a text field with its quote characters removed, for a boolean field
    whether it is [true], [yes] or [1] in any case). Nothing is asked of
    [gap] but that: it may hold the end of the first docstring and the start
    of a second one, and the field is read all the same. *)
Theorem field_is_read_where_it_first_stands
    (field pre gap fld sp d tl : string) (c : ascii) (as_bool : bool) :
  (c = DQ \/ c = SQ) ->
  contains_char DQ pre = false ->
  contains_char SQ pre = false ->
  same_text true field fld = true ->
  starts_off isspace (fld +:+ ":") = true ->
  field_free field gap (fld +:+ ":" +:+ sp +:+ d +:+ tl) = true ->
  all_chars isspace sp = true ->
  d <> EmptyString ->
  all_chars not_newline d = true ->
  starts_off isspace d = true ->
  starts_off not_newline tl = true ->
  _parse_docstring_field
    (pre +:+ opener c +:+ gap +:+ fld +:+ ":" +:+ sp +:+ d +:+ tl) field as_bool
  = if as_bool
    then FBool (bool_decide (lower (strip d) ∈ truthy_tokens))
    else FStr (remove_char SQ (remove_char DQ (strip d))).
Proof.
  intros Hc Hpd Hps Hfld Hoff Hfree Hsp Hd Hnl Hdoff Htl.
  unfold _parse_docstring_field, search.
  destruct (search_from_skips field pre
              (opener c +:+ gap +:+ fld +:+ ":" +:+ sp +:+ d +:+ tl) d Hpd Hps)
    with (b := @None ascii) (n := 0%nat)
         (fuel := String.length
                    (pre +:+ opener c +:+ gap +:+ fld +:+ ":" +:+ sp +:+ d +:+ tl))
    as [e He].
  - intros b n. now apply match_at_field.
  - rewrite length_app. lia.
  - rewrite He. reflexivity.
Qed.

Lemma field_is_read_where_it_first_stands_witness :
  _parse_docstring_field script_two_strings "Validated" true = FBool true.
Proof.
  exact (field_is_read_where_it_first_stands
           "Validated" EmptyString ("Doc'''" +:+ nl +:+ "'''" +:+ nl) "Validated"
           " " "true" (nl +:+ "'''" +:+ nl) SQ true
           (or_intror eq_refl) eq_refl eq_refl eq_refl eq_refl eq_refl eq_refl
           (fun H : "true"%string = EmptyString =>
              eq_ind "true"%string
                (fun s => match s with EmptyString => False | String _ _ => True end)
                I EmptyString H)
           eq_refl eq_refl eq_refl).
Defined.

(** The same in a docstring that does declare the field, and for a text
    field written in upper case. *)
Example field_in_the_first_docstring :
  _parse_docstring_field script_validated "Validated" true = FBool true
  /\ _parse_docstring_field
       ("'''" +:+ nl +:+ "DESCRIPTION:  'lists files' " +:+ nl +:+ "'''")
       "Description" false
     = FStr "lists files".
Proof. vm_compute. split; reflexivity. Qed.

End FieldSearch.
